(** * phosphor-tabs: the tab bar's title collection, selection and pointer handling

    A shallow embedding of [src/tabbar.ts] (class [TabBar], struct
    [DragData], namespace [TabBarPrivate]).  A tab bar is a record of its
    private fields together with the parts of its surroundings the methods
    write to: the store of the [currentTitle] property, the signal
    connections, the posted update requests, the emitted signals, the
    capture listeners on the document and the tab nodes of the content
    node.  A method is a function from the tab bar before the call to a
    completion (normal, or a thrown [TypeError]) and the tab bar after it.

    Numbers that the source treats as indices are integers ([Z]); the
    coercion [index | 0] is written out as [toInt32].  Pixel coordinates
    are taken in whole pixels. *)

From stdpp Require Import base list strings.
From Stdlib Require Import ZArith Lia.

Local Open Scope Z_scope.

(* ================================================================== *)
(** ** Values *)

(** A [Title] is an object owned elsewhere and compared by identity
    ([===]); it is modelled by its reference. *)
Definition Title := nat.

(** A DOM node, by reference. *)
Definition NodeId := nat.

(** The disposable returned by a cursor override, by reference. *)
Definition Disposable := nat.

Definition DRAG_THRESHOLD : Z := 5.
Definition TEAR_OFF_THRESHOLD : Z := 20.
Definition TRANSITION_DURATION : Z := 150.

(** [x | 0]: the number as a signed 32-bit integer. *)
Definition toInt32 (x : Z) : Z := (x + 2 ^ 31) mod 2 ^ 32 - 2 ^ 31.

Record ClientRect := mkRect {
  left : Z;
  top : Z;
  width : Z;
  height : Z
}.

Definition right (r : ClientRect) : Z := left r + width r.
Definition bottom (r : ClientRect) : Z := top r + height r.

(** A tab node ([li]) of the content node: the node itself, its last
    child (the close icon span made by [createTabNode]), its geometry and
    the style the drag code writes. *)
Record TabNode := mkTabNode {
  node : NodeId;
  lastChild : NodeId;
  boundingClientRect : ClientRect;
  offsetLeft : Z;
  styleLeft : string;
  hasDraggingClass : bool
}.

Record ITabLayout := mkTabLayout {
  margin : Z;
  layoutLeft : Z;
  layoutWidth : Z
}.

(** [class DragData], field by field; [null] is [None]. *)
Record DragData := mkDragData {
  title : option Title;
  tab : option NodeId;
  tabIndex : Z;
  tabLeft : Z;
  tabWidth : Z;
  tabPressX : Z;
  tabTargetIndex : Z;
  tabLayout : option (list ITabLayout);
  pressX : Z;
  pressY : Z;
  contentRect : option ClientRect;
  cursorGrab : option Disposable;
  dragActive : bool;
  detachRequested : bool
}.

(** [new DragData()]. *)
Definition newDragData : DragData :=
  {| title := None; tab := None; tabIndex := -1; tabLeft := -1;
     tabWidth := -1; tabPressX := -1; tabTargetIndex := -1;
     tabLayout := None; pressX := -1; pressY := -1; contentRect := None;
     cursorGrab := None; dragActive := false; detachRequested := false |}.

(** What the tab bar's two signals carry.  The source declares
    [currentChangedSignal] and [tabCloseRequestedSignal] and no other. *)
Inductive Emission :=
| CurrentChanged (oldValue newValue : option Title)
| TabCloseRequested (closed : Title).

(** How a call ends. *)
Inductive Completion := Normal | TypeError.

(* ================================================================== *)
(** ** The tab bar *)

Record TabBar := mkTabBar {
  (* private fields of the class *)
  _dirty : bool;
  _tabsMovable : bool;
  _titles : list Title;
  _dragData : option DragData;
  (* the value stored for [currentTitleProperty] *)
  currentTitle : option Title;
  (* titles whose [changed] signal is connected to [_onTitleChanged] *)
  connected : list Title;
  (* calls of [update()] so far *)
  updateRequests : nat;
  (* signals emitted so far, oldest first *)
  emitted : list Emission;
  (* event types for which the bar is a capture listener on the document *)
  documentCapture : list string;
  (* [contentNode.children] *)
  children : list TabNode;
  (* the bar's own node carries DRAGGING_CLASS *)
  draggingClass : bool;
  (* cursor overrides disposed so far *)
  disposedGrabs : list Disposable
}.

(** The tab bar after [new TabBar()]. *)
Definition newTabBar : TabBar :=
  {| _dirty := false; _tabsMovable := false; _titles := []; _dragData := None;
     currentTitle := None; connected := []; updateRequests := 0%nat;
     emitted := []; documentCapture := []; children := [];
     draggingClass := false; disposedGrabs := [] |}.

Definition M : Type := TabBar -> Completion * TabBar.

Definition ret : M := fun this => (Normal, this).

Definition seq (f g : M) : M :=
  fun this =>
    match f this with
    | (Normal, this') => g this'
    | (TypeError, this') => (TypeError, this')
    end.

Declare Scope method_scope.
Delimit Scope method_scope with method.
Bind Scope method_scope with M.
Notation "f ;; g" := (seq f g)
  (at level 100, g at level 200, right associativity) : method_scope.

(** A step that cannot throw. *)
Definition step (f : TabBar -> TabBar) : M := fun this => (Normal, f this).

Section FieldUpdates.
Variable this : TabBar.

Definition with_dirty (v : bool) : TabBar :=
  mkTabBar v (_tabsMovable this) (_titles this) (_dragData this)
    (currentTitle this) (connected this) (updateRequests this)
    (emitted this) (documentCapture this) (children this)
    (draggingClass this) (disposedGrabs this).

Definition with_tabsMovable (v : bool) : TabBar :=
  mkTabBar (_dirty this) v (_titles this) (_dragData this)
    (currentTitle this) (connected this) (updateRequests this)
    (emitted this) (documentCapture this) (children this)
    (draggingClass this) (disposedGrabs this).

Definition with_titles (v : list Title) : TabBar :=
  mkTabBar (_dirty this) (_tabsMovable this) v (_dragData this)
    (currentTitle this) (connected this) (updateRequests this)
    (emitted this) (documentCapture this) (children this)
    (draggingClass this) (disposedGrabs this).

Definition with_dragData (v : option DragData) : TabBar :=
  mkTabBar (_dirty this) (_tabsMovable this) (_titles this) v
    (currentTitle this) (connected this) (updateRequests this)
    (emitted this) (documentCapture this) (children this)
    (draggingClass this) (disposedGrabs this).

Definition with_currentTitle (v : option Title) : TabBar :=
  mkTabBar (_dirty this) (_tabsMovable this) (_titles this) (_dragData this)
    v (connected this) (updateRequests this)
    (emitted this) (documentCapture this) (children this)
    (draggingClass this) (disposedGrabs this).

Definition with_connected (v : list Title) : TabBar :=
  mkTabBar (_dirty this) (_tabsMovable this) (_titles this) (_dragData this)
    (currentTitle this) v (updateRequests this)
    (emitted this) (documentCapture this) (children this)
    (draggingClass this) (disposedGrabs this).

Definition with_updateRequests (v : nat) : TabBar :=
  mkTabBar (_dirty this) (_tabsMovable this) (_titles this) (_dragData this)
    (currentTitle this) (connected this) v
    (emitted this) (documentCapture this) (children this)
    (draggingClass this) (disposedGrabs this).

Definition with_emitted (v : list Emission) : TabBar :=
  mkTabBar (_dirty this) (_tabsMovable this) (_titles this) (_dragData this)
    (currentTitle this) (connected this) (updateRequests this)
    v (documentCapture this) (children this)
    (draggingClass this) (disposedGrabs this).

Definition with_documentCapture (v : list string) : TabBar :=
  mkTabBar (_dirty this) (_tabsMovable this) (_titles this) (_dragData this)
    (currentTitle this) (connected this) (updateRequests this)
    (emitted this) v (children this)
    (draggingClass this) (disposedGrabs this).

Definition with_children (v : list TabNode) : TabBar :=
  mkTabBar (_dirty this) (_tabsMovable this) (_titles this) (_dragData this)
    (currentTitle this) (connected this) (updateRequests this)
    (emitted this) (documentCapture this) v
    (draggingClass this) (disposedGrabs this).

Definition with_draggingClass (v : bool) : TabBar :=
  mkTabBar (_dirty this) (_tabsMovable this) (_titles this) (_dragData this)
    (currentTitle this) (connected this) (updateRequests this)
    (emitted this) (documentCapture this) (children this)
    v (disposedGrabs this).

Definition with_disposedGrabs (v : list Disposable) : TabBar :=
  mkTabBar (_dirty this) (_tabsMovable this) (_titles this) (_dragData this)
    (currentTitle this) (connected this) (updateRequests this)
    (emitted this) (documentCapture this) (children this)
    (draggingClass this) v.
End FieldUpdates.

(* ================================================================== *)
(** ** Collaborators outside the repository *)

(** Modelled from the spec: [Array.prototype.indexOf] on the title array,
    "position, or -1 if not present": the index of the first element
    identical to [value]. *)
Definition indexOf (array : list Title) (value : Title) : Z :=
  match list_find (λ t, t = value) array with
  | Some (i, _) => Z.of_nat i
  | None => -1
  end.

(** Reading [array[i]] for a number [i]: [undefined] out of range. *)
Definition at_index {A} (array : list A) (i : Z) : option A :=
  if i <? 0 then None else array !! Z.to_nat i.

(** Modelled from the spec: [arrays.insert] of phosphor-arrays, which is not
    part of this repository; the spec has the title "spliced in" at the
    index. *)
Definition arrays_insert {A} (array : list A) (index : nat) (value : A) : list A :=
  take index array ++ value :: drop index array.

(** Modelled from the spec: [arrays.move] of phosphor-arrays; the spec has
    "single removal + reinsertion, preserving all other relative order".
    Either index out of range leaves the array as it is. *)
Definition arrays_move {A} (array : list A) (fromIndex toIndex : nat) : list A :=
  match array !! fromIndex with
  | Some value =>
      if decide (toIndex < length array)%nat
      then arrays_insert (delete fromIndex array) toIndex value
      else array
  | None => array
  end.

(** Modelled from the spec: [arrays.removeAt] of phosphor-arrays: the
    removed element ([undefined] out of range) and the array without it. *)
Definition arrays_removeAt {A} (array : list A) (index : nat) : option A * list A :=
  (array !! index, delete index array).

(** Modelled from the spec: [Signal.connect] and [Signal.disconnect] of
    phosphor-signaling on a title's [changed] signal, for the one slot
    [_onTitleChanged] of this tab bar: a slot is connected at most once. *)
Definition connect (t : Title) (this : TabBar) : TabBar :=
  if decide (t ∈ connected this) then this
  else with_connected this (connected this ++ [t]).

Definition disconnect (t : Title) (this : TabBar) : TabBar :=
  with_connected this (filter (λ u, u ≠ t) (connected this)).

(** Modelled from the spec: [Widget.update()], which posts an
    update request; requests are coalesced by the message loop. *)
Definition update (this : TabBar) : TabBar :=
  with_updateRequests this (S (updateRequests this)).

(** Modelled from the spec: [Signal.emit], "synchronous delivery to
    subscribers"; the emission is recorded. *)
Definition emit (e : Emission) (this : TabBar) : TabBar :=
  with_emitted this (emitted this ++ [e]).

(** Modelled from the spec: [document.addEventListener(type, this, true)]
    and its removal; the same listener is registered at most once. *)
Definition addDocumentListener (type : string) (this : TabBar) : TabBar :=
  if decide (type ∈ documentCapture this) then this
  else with_documentCapture this (documentCapture this ++ [type]).

Definition removeDocumentListener (type : string) (this : TabBar) : TabBar :=
  with_documentCapture this (filter (λ u, u ≠ type) (documentCapture this)).

(* ================================================================== *)
(** ** Accessors *)

Definition titleCount (this : TabBar) : Z := Z.of_nat (length (_titles this)).

Definition titleAt (this : TabBar) (index : Z) : option Title :=
  at_index (_titles this) index.

Definition titleIndex (this : TabBar) (title : Title) : Z :=
  indexOf (_titles this) title.

Definition set_tabsMovable (value : bool) : M :=
  step (λ this, with_tabsMovable this value).

(* ================================================================== *)
(** ** The [currentTitle] property *)

(** [coerceCurrentTitle]: a member stays, anything else becomes [null]. *)
Definition coerceCurrentTitle (owner : TabBar) (value : option Title) : option Title :=
  match value with
  | Some v => if negb (titleIndex owner v =? -1) then Some v else None
  | None => None
  end.

(** [onCurrentTitleChanged]. *)
Definition onCurrentTitleChanged (owner : TabBar) : TabBar := update owner.

(** Modelled from the spec: [Property.set] of phosphor-properties, "a setter
    that runs validation, mutation, notification as three discrete steps":
    the value is coerced and stored; when it differs from the old one the
    change hook runs and the bound signal is emitted with both values. *)
Definition set_currentTitle (value : option Title) (owner : TabBar) : TabBar :=
  let oldValue := currentTitle owner in
  let newValue := coerceCurrentTitle owner value in
  let owner := with_currentTitle owner newValue in
  if decide (oldValue = newValue) then owner
  else emit (CurrentChanged oldValue newValue) (onCurrentTitleChanged owner).

(* ================================================================== *)
(** ** Releasing the mouse *)

(** [node.style.left = ''] *)
Definition resetLeft (n : TabNode) : TabNode :=
  mkTabNode (node n) (lastChild n) (boundingClientRect n) (offsetLeft n)
    EmptyString (hasDraggingClass n).

(** [tab.classList.remove(DRAGGING_CLASS)] for the node referred to by
    [tab]; other nodes are left alone. *)
Definition removeDraggingClass (tab : NodeId) (n : TabNode) : TabNode :=
  if decide (node n = tab)
  then mkTabNode (node n) (lastChild n) (boundingClientRect n) (offsetLeft n)
         (styleLeft n) false
  else n.

Definition _releaseMouse : M :=
  fun this =>
    (* Bail early if there is no drag in progress. *)
    match _dragData this with
    | None => (Normal, this)
    | Some data =>
        (* Clear the drag data reference. *)
        let this := with_dragData this None in
        (* Remove the extra mouse listeners. *)
        let this := removeDocumentListener "mouseup" this in
        let this := removeDocumentListener "mousemove" this in
        (* If the drag is not active, there's nothing left to do. *)
        if negb (dragActive data) then (Normal, this) else
        (* Reset the positions of the tabs. *)
        let this := with_children this (resetLeft <$> children this) in
        (* Clear the cursor grab and drag styles. *)
        match cursorGrab data with
        | None => (TypeError, this)
        | Some grab =>
            let this := with_disposedGrabs this (disposedGrabs this ++ [grab]) in
            match tab data with
            | None => (TypeError, this)
            | Some tab =>
                let this :=
                  with_children this (removeDraggingClass tab <$> children this) in
                (Normal, with_draggingClass this false)
            end
        end
    end.

Definition releaseMouse : M := _releaseMouse.

(* ================================================================== *)
(** ** Inserting, moving and removing titles *)

(** The tail shared by the mutators: flip the dirty flag and schedule a
    full update. *)
Definition markDirty (this : TabBar) : TabBar := update (with_dirty this true).

Definition insertTitle (index : Z) (title : Title) : M :=
  (* Release the mouse before making changes. *)
  (_releaseMouse ;;
   fun this =>
     (* Insert the new title or move an existing title. *)
     let n := titleCount this in
     let i := titleIndex this title in
     let j := Z.max 0 (Z.min (toInt32 index) n) in
     if negb (i =? -1) then
       let j := if j =? n then j - 1 else j in
       if i =? j then (Normal, this) else
       let this :=
         with_titles this (arrays_move (_titles this) (Z.to_nat i) (Z.to_nat j)) in
       (Normal, markDirty this)
     else
       let this :=
         with_titles this (arrays_insert (_titles this) (Z.to_nat j) title) in
       let this := connect title this in
       let this :=
         if decide (currentTitle this = None)
         then set_currentTitle (Some title) this else this in
       (Normal, markDirty this))%method.

Definition addTitle (title : Title) : M :=
  fun this => insertTitle (titleCount this) title this.

Definition removeTitleAt (index : Z) : M :=
  (* Release the mouse before making changes. *)
  (_releaseMouse ;;
   fun this =>
     (* Do nothing if the index is out of range. *)
     let i := toInt32 index in
     if (i <? 0) || (i >=? titleCount this) then (Normal, this) else
     (* Remove the title at the index and disconnect the handler. *)
     match arrays_removeAt (_titles this) (Z.to_nat i) with
     | (None, _) => (TypeError, this)
     | (Some title, rest) =>
         let this := with_titles this rest in
         let this := disconnect title this in
         (* Select the next best tab if removing the current tab. *)
         let this :=
           if decide (currentTitle this = Some title)
           then set_currentTitle
                  (match titleAt this i with
                   | Some next => Some next
                   | None => titleAt this (i - 1)
                   end) this
           else this in
         (Normal, markDirty this)
     end)%method.

Definition removeTitle (title : Title) : M :=
  fun this => removeTitleAt (titleIndex this title) this.

(** The loop of [clearTitles]: pop and disconnect while the array is not
    empty.  [fuel] bounds the number of turns; the length of the array is
    enough ([clearLoop_empties]). *)
Fixpoint clearLoop (fuel : nat) (this : TabBar) : TabBar :=
  match fuel with
  | O => this
  | S fuel =>
      match last (_titles this) with
      | None => this
      | Some title =>
          let this := with_titles this (removelast (_titles this)) in
          clearLoop fuel (disconnect title this)
      end
  end.

Definition clearTitles : M :=
  (* Release the mouse before making changes. *)
  (_releaseMouse ;;
   fun this =>
     (* Remove and disconnect all titles. *)
     let this := clearLoop (length (_titles this)) this in
     (Normal, markDirty this))%method.

(** [_onTitleChanged]: the slot connected to every member's [changed]. *)
Definition _onTitleChanged (sender : Title) : M := step markDirty.

Section Dispose.
(** The [dispose] of the widget base class, which belongs to
    phosphor-widget and not to this repository, is taken as given. *)
Variable super_dispose : M.

Definition dispose : M :=
  (_releaseMouse ;;
   step (λ this, with_titles this []) ;;
   super_dispose)%method.
End Dispose.

(* ================================================================== *)
(** ** DOM events *)

Record MouseEvent := mkMouseEvent {
  type : string;
  button : Z;
  clientX : Z;
  clientY : Z;
  target : NodeId;
  defaultPrevented : bool;
  propagationStopped : bool
}.

Definition preventDefault (e : MouseEvent) : MouseEvent :=
  mkMouseEvent (type e) (button e) (clientX e) (clientY e) (target e)
    true (propagationStopped e).

Definition stopPropagation (e : MouseEvent) : MouseEvent :=
  mkMouseEvent (type e) (button e) (clientX e) (clientY e) (target e)
    (defaultPrevented e) true.

(** Modelled from the spec: [hitTest] of phosphor-domutil,
    "point-in-rectangle hit testing" against the node's bounding
    rectangle in viewport coordinates. *)
Definition hitTest (n : TabNode) (x y : Z) : bool :=
  let rect := boundingClientRect n in
  (left rect <=? x) && (x <? right rect) && (top rect <=? y) && (y <? bottom rect).

Fixpoint hitTestFrom (nodes : list TabNode) (i : Z) (x y : Z) : Z :=
  match nodes with
  | [] => -1
  | n :: rest => if hitTest n x y then i else hitTestFrom rest (i + 1) x y
  end.

(** [TabBarPrivate.hitTestTabs]: the index of the first tab node under
    the point, or [-1]. *)
Definition hitTestTabs (owner : TabBar) (x y : Z) : Z :=
  hitTestFrom (children owner) 0 x y.

(** [TabBarPrivate.closeIconNode]: [children[index].lastChild];
    [None] stands for reading [lastChild] of [undefined]. *)
Definition closeIconNode (owner : TabBar) (index : Z) : option NodeId :=
  lastChild <$> at_index (children owner) index.

(** An event handler mutates the event and the tab bar. *)
Definition Handler : Type := MouseEvent -> TabBar -> Completion * MouseEvent * TabBar.

(** What the handlers read and the tab bar never writes: the [closable]
    attribute of the titles, and which DOM node contains which
    ([Node.contains]). *)
Record Page := mkPage {
  closable : Title -> bool;
  contains : NodeId -> NodeId -> bool
}.

Section Handlers.
Variable page : Page.

Definition _evtClick : Handler :=
  fun event this =>
    (* Do nothing if it's not a left click. *)
    if negb (button event =? 0) then (Normal, event, this) else
    (* Do nothing if the click is not on a tab. *)
    let i := hitTestTabs this (clientX event) (clientY event) in
    if i <? 0 then (Normal, event, this) else
    (* Clicking on a tab stops the event propagation. *)
    let event := stopPropagation (preventDefault event) in
    (* Ignore the click if the title is not closable. *)
    match titleAt this i with
    | None => (TypeError, event, this)
    | Some title =>
        if negb (closable page title) then (Normal, event, this) else
        (* Ignore the click if the close icon wasn't clicked. *)
        match closeIconNode this i with
        | None => (TypeError, event, this)
        | Some icon =>
            if negb (contains page icon (target event)) then (Normal, event, this) else
            (* Emit the tab close requested signal. *)
            (Normal, event, emit (TabCloseRequested title) this)
        end
    end.

Definition _evtMouseDown : Handler :=
  fun event this =>
    (* Do nothing if it's not a left mouse press. *)
    if negb (button event =? 0) then (Normal, event, this) else
    (* Bail if a previous drag is still transitioning. *)
    if bool_decide (is_Some (_dragData this)) then (Normal, event, this) else
    (* Do nothing if the press is not on a tab. *)
    let i := hitTestTabs this (clientX event) (clientY event) in
    if i <? 0 then (Normal, event, this) else
    (* Pressing on a tab stops the event propagation. *)
    let event := stopPropagation (preventDefault event) in
    (* Ignore the press if the close icon was clicked. *)
    match closeIconNode this i with
    | None => (TypeError, event, this)
    | Some icon =>
        if contains page icon (target event) then (Normal, event, this) else
        (* Lookup the title and tab object. *)
        let title := titleAt this i in
        let tab := at_index (children this) i in
        (* Setup the drag if the tabs are movable. *)
        let setup :=
          if _tabsMovable this then
            match tab with
            | None => (TypeError, this)
            | Some tab =>
                let tabRect := boundingClientRect tab in
                let data :=
                  {| title := title;
                     tab := Some (node tab);
                     tabIndex := i;
                     tabLeft := offsetLeft tab;
                     tabWidth := width tabRect;
                     tabPressX := clientX event - left tabRect;
                     tabTargetIndex := tabTargetIndex newDragData;
                     tabLayout := tabLayout newDragData;
                     pressX := clientX event;
                     pressY := clientY event;
                     contentRect := contentRect newDragData;
                     cursorGrab := cursorGrab newDragData;
                     dragActive := dragActive newDragData;
                     detachRequested := detachRequested newDragData |} in
                let this := with_dragData this (Some data) in
                let this := addDocumentListener "mouseup" this in
                let this := addDocumentListener "mousemove" this in
                (Normal, this)
            end
          else (Normal, this) in
        match setup with
        | (TypeError, this) => (TypeError, event, this)
        | (Normal, this) =>
            (* Update the current title. *)
            (Normal, event, set_currentTitle title this)
        end
    end.

(** [handleEvent]: the [switch] has the two cases ['click'] and
    ['mousedown']; the cases for ['mousemove'] and ['mouseup'] are
    commented out in the source, so such an event falls through. *)
Definition handleEvent : Handler :=
  fun event this =>
    if decide (type event = "click") then _evtClick event this
    else if decide (type event = "mousedown") then _evtMouseDown event this
    else (Normal, event, this).
End Handlers.


(* ================================================================== *)
(** ** Calls from outside *)

(** What user code and the browser can do to a tab bar. *)
Inductive Call :=
| InsertTitle (index : Z) (title : Title)
| AddTitle (title : Title)
| RemoveTitleAt (index : Z)
| RemoveTitle (title : Title)
| ClearTitles
| ReleaseMouse
| SetCurrentTitle (value : option Title)
| SetTabsMovable (value : bool)
| TitleChanged (sender : Title)
| HandleEvent (event : MouseEvent).

Definition call (page : Page) (c : Call) : M :=
  match c with
  | InsertTitle index title => insertTitle index title
  | AddTitle title => addTitle title
  | RemoveTitleAt index => removeTitleAt index
  | RemoveTitle title => removeTitle title
  | ClearTitles => clearTitles
  | ReleaseMouse => releaseMouse
  | SetCurrentTitle value => step (set_currentTitle value)
  | SetTabsMovable value => set_tabsMovable value
  | TitleChanged sender => _onTitleChanged sender
  | HandleEvent event =>
      fun this =>
        match handleEvent page event this with
        | (c, _, this') => (c, this')
        end
  end.

(** Calls one after the other, until one throws. *)
Fixpoint run (page : Page) (calls : list Call) : M :=
  match calls with
  | [] => ret
  | c :: rest => seq (call page c) (run page rest)
  end.

(* ================================================================== *)
(** ** Conditions on a tab bar *)

(** An open session can be released without a thrown error: once its
    drag is active it holds a cursor override and a tab node. *)
Definition releasable (this : TabBar) : Prop :=
  ∀ data, _dragData this = Some data -> dragActive data = true ->
    is_Some (cursorGrab data) ∧ is_Some (tab data).

(** No open session has an active drag. *)
Definition sessionIdle (this : TabBar) : Prop :=
  ∀ data, _dragData this = Some data -> dragActive data = false.

(** Without a session the bar holds no capture listener on the document. *)
Definition captureQuiet (this : TabBar) : Prop :=
  _dragData this = None -> documentCapture this = [].

(** The current title is [null] or a member. *)
Definition selectionValid (this : TabBar) : Prop :=
  ∀ t, currentTitle this = Some t -> t ∈ _titles this.

(** What every call keeps true of the session and of the document: an
    open session has no active drag, the bar listens on the document for
    nothing but the release and the moves of the mouse, and for nothing at
    all without a session. *)
Record consistent (this : TabBar) : Prop := mkConsistent {
  session_idle : sessionIdle this;
  capture_known :
    ∀ type, type ∈ documentCapture this -> type = "mouseup" ∨ type = "mousemove";
  capture_quiet : captureQuiet this
}.

(** Two tab bars with the same session and the same document listeners. *)
Definition sameSession (a b : TabBar) : Prop :=
  _dragData a = _dragData b ∧ documentCapture a = documentCapture b.

(** The bar listens on the document exactly while a session is open, and
    an open session has no active drag. *)
Definition capturing (this : TabBar) : Prop :=
  match _dragData this with
  | None => documentCapture this = []
  | Some data =>
      dragActive data = false ∧ documentCapture this = ["mouseup"; "mousemove"]
  end.

(** The tab bar once the mouse is released. *)
Definition released (this : TabBar) : TabBar := (_releaseMouse this).2.

(** The event's target lies inside the close icon of the tab at [i]. *)
Definition onCloseIcon (page : Page) (this : TabBar) (i : Z) (event : MouseEvent) : bool :=
  match closeIconNode this i with
  | Some icon => contains page icon (target event)
  | None => false
  end.

(* ================================================================== *)
(** ** A tab bar with two tabs *)

Definition titleA : Title := 1%nat.
Definition titleB : Title := 2%nat.
Definition titleC : Title := 3%nat.

(** A page on which no title is closable and a close icon, the span that
    [createTabNode] makes without child elements, contains only itself. *)
Definition plainPage : Page :=
  {| closable := λ _, false;
     contains := λ icon target, bool_decide (icon = target) |}.

(** The same page with the title A closable. *)
Definition pageClosableA : Page :=
  {| closable := λ t, bool_decide (t = titleA);
     contains := λ icon target, bool_decide (icon = target) |}.

(** A tab node 100 pixels wide and 30 high whose left edge is at [x];
    its close icon is the node after it. *)
Definition tabNodeAt (id : NodeId) (x : Z) : TabNode :=
  mkTabNode id (S id) (mkRect x 0 100 30) x EmptyString false.

(** [addTitle(A); addTitle(B)] on a new tab bar. *)
Definition barAB : TabBar :=
  (run plainPage [AddTitle titleA; AddTitle titleB] newTabBar).2.

(** The same with movable tabs, after the update pass has made the two tab
    nodes and they are laid out side by side from the left edge, at 0, of
    the content node: A over [0, 100), B over [100, 200). *)
Definition twoTabs : TabBar :=
  with_children
    (run plainPage
       [AddTitle titleA; AddTitle titleB; SetTabsMovable true] newTabBar).2
    [tabNodeAt 10%nat 0; tabNodeAt 20%nat 100].

(** [twoTabs] after a left press on tab B, which opens a drag session. *)
Definition pressB : MouseEvent := mkMouseEvent "mousedown" 0 150 10 20%nat false false.

Definition twoTabsPressed : TabBar :=
  (run plainPage [HandleEvent pressB] twoTabs).2.

Definition mouseMove (x y : Z) : MouseEvent :=
  mkMouseEvent "mousemove" 0 x y 20%nat false false.

Definition mouseUp (x y : Z) : MouseEvent :=
  mkMouseEvent "mouseup" 0 x y 20%nat false false.

(* ================================================================== *)
(** * Properties *)

(** ** Integers and arrays *)

Lemma toInt32_range (x : Z) : - 2 ^ 31 <= toInt32 x < 2 ^ 31.
Proof.
  unfold toInt32.
  pose proof (Z.mod_pos_bound (x + 2 ^ 31) (2 ^ 32)) as Hb. lia.
Qed.

Lemma toInt32_small (x : Z) : - 2 ^ 31 <= x < 2 ^ 31 -> toInt32 x = x.
Proof.
  intros Hx. unfold toInt32. rewrite Z.mod_small; lia.
Qed.

Lemma indexOf_absent (array : list Title) (value : Title) :
  indexOf array value = -1 <-> value ∉ array.
Proof.
  unfold indexOf.
  destruct (list_find (λ t, t = value) array) as [[i y]|] eqn:Hfind.
  - apply list_find_Some in Hfind as (Hi & -> & _).
    split; [lia|]. intros Hno. destruct Hno. eapply list_elem_of_lookup_2, Hi.
  - split; [|done]. intros _ Hin.
    apply list_find_None in Hfind. rewrite Forall_forall in Hfind.
    by apply (Hfind value).
Qed.

Lemma indexOf_present (array : list Title) (value : Title) (i : Z) :
  indexOf array value = i -> i ≠ -1 ->
  0 <= i < Z.of_nat (length array) ∧ array !! Z.to_nat i = Some value.
Proof.
  unfold indexOf.
  destruct (list_find (λ t, t = value) array) as [[k y]|] eqn:Hfind;
    [|intros <-; done].
  apply list_find_Some in Hfind as (Hk & -> & _).
  intros <- _. rewrite Nat2Z.id. split; [|done].
  apply lookup_lt_Some in Hk. lia.
Qed.

Lemma indexOf_first (array : list Title) (value : Title) (k : nat) :
  array !! k = Some value ->
  (∀ j, (j < k)%nat -> array !! j ≠ Some value) ->
  indexOf array value = Z.of_nat k.
Proof.
  intros Hk Hfirst. unfold indexOf.
  destruct (list_find (λ t, t = value) array) as [[i y]|] eqn:Hfind.
  - apply list_find_Some in Hfind as (Hi & -> & Hmin).
    destruct (lt_eq_lt_dec i k) as [[Hlt| ->]|Hgt]; [|done|].
    + by destruct (Hfirst i Hlt).
    + by destruct (Hmin k value Hk Hgt).
  - apply list_find_None in Hfind. rewrite Forall_forall in Hfind.
    destruct (Hfind value); [|done]. eapply list_elem_of_lookup_2, Hk.
Qed.

Lemma member_index (array : list Title) (t : Title) :
  t ∈ array <-> indexOf array t ≠ -1.
Proof.
  split.
  - intros Hin Habs. by apply indexOf_absent in Habs.
  - intros Hpres. destruct (decide (t ∈ array)) as [|Hout]; [done|].
    by apply indexOf_absent in Hout.
Qed.

Lemma at_index_nat {A} (array : list A) (k : nat) :
  at_index array (Z.of_nat k) = array !! k.
Proof.
  unfold at_index. destruct (Z.ltb_spec (Z.of_nat k) 0); [lia|].
  by rewrite Nat2Z.id.
Qed.

Lemma at_index_elem_of {A} (array : list A) (i : Z) (x : A) :
  at_index array i = Some x -> x ∈ array.
Proof.
  unfold at_index. destruct (i <? 0); [done|]. apply list_elem_of_lookup_2.
Qed.

Lemma at_index_Some {A} (array : list A) (i : Z) (x : A) :
  at_index array i = Some x <->
  0 <= i < Z.of_nat (length array) ∧ array !! Z.to_nat i = Some x.
Proof.
  unfold at_index. destruct (Z.ltb_spec i 0).
  - split; [done|lia].
  - split.
    + intros Hat. pose proof (lookup_lt_Some _ _ _ Hat). split; [lia|done].
    + by intros [_ Hat].
Qed.


Section Arrays.
Context {A : Type}.
Implicit Types (array : list A) (value : A).

Lemma arrays_insert_length array j value :
  length (arrays_insert array j value) = S (length array).
Proof.
  unfold arrays_insert. rewrite length_app. simpl.
  rewrite length_take, length_drop. lia.
Qed.

Lemma arrays_insert_lookup array j value :
  (j <= length array)%nat -> arrays_insert array j value !! j = Some value.
Proof.
  intros Hj. unfold arrays_insert.
  rewrite lookup_app_r; rewrite length_take; [|lia].
  by replace (j - j `min` length array)%nat with 0%nat by lia.
Qed.

(** Taking the inserted element out again gives the array back: the
    others keep their order. *)
Lemma arrays_insert_delete array j value :
  (j <= length array)%nat -> delete j (arrays_insert array j value) = array.
Proof.
  intros Hj. unfold arrays_insert.
  assert (Hlen : length (take j array) = j) by (rewrite length_take; lia).
  rewrite <- Hlen at 1. by rewrite delete_middle, take_drop.
Qed.

Lemma arrays_insert_elem_of array j value x :
  x ∈ arrays_insert array j value <-> x = value ∨ x ∈ array.
Proof.
  unfold arrays_insert. rewrite elem_of_app, elem_of_cons.
  assert (x ∈ array <-> x ∈ take j array ∨ x ∈ drop j array) as ->; [|tauto].
  by rewrite <- elem_of_app, take_drop.
Qed.

Lemma arrays_move_length array i j :
  length (arrays_move array i j) = length array.
Proof.
  unfold arrays_move. destruct (array !! i) as [value|] eqn:Hi; [|done].
  case_decide; [|done].
  rewrite arrays_insert_length, length_delete; [|by eexists].
  apply lookup_lt_Some in Hi. lia.
Qed.

Lemma arrays_move_lookup array i j value :
  array !! i = Some value -> (j < length array)%nat ->
  arrays_move array i j !! j = Some value.
Proof.
  intros Hi Hj. unfold arrays_move. rewrite Hi.
  case_decide; [|lia]. apply arrays_insert_lookup.
  rewrite length_delete; [lia|by eexists].
Qed.

(** A move is one removal and one reinsertion: without the moved
    element the array is the same before and after. *)
Lemma arrays_move_delete array i j :
  is_Some (array !! i) -> (j < length array)%nat ->
  delete j (arrays_move array i j) = delete i array.
Proof.
  intros [value Hi] Hj. unfold arrays_move. rewrite Hi.
  case_decide; [|lia]. apply arrays_insert_delete.
  rewrite length_delete; [lia|by eexists].
Qed.

Lemma arrays_move_elem_of array i j x :
  x ∈ arrays_move array i j <-> x ∈ array.
Proof.
  unfold arrays_move. destruct (array !! i) as [value|] eqn:Hi; [|done].
  case_decide; [|done].
  rewrite arrays_insert_elem_of.
  assert (x ∈ array <-> x = value ∨ x ∈ delete i array) as ->; [|tauto].
  rewrite <- (take_drop_middle array i value Hi) at 1.
  rewrite delete_take_drop, !elem_of_app, elem_of_cons. tauto.
Qed.
End Arrays.

Lemma arrays_insert_index (array : list Title) (j : nat) (t : Title) :
  t ∉ array -> (j <= length array)%nat ->
  indexOf (arrays_insert array j t) t = Z.of_nat j.
Proof.
  intros Hout Hj. apply indexOf_first; [by apply arrays_insert_lookup|].
  intros k Hk Hat. unfold arrays_insert in Hat.
  rewrite lookup_app_l in Hat by (rewrite length_take; lia).
  rewrite lookup_take_lt in Hat by done.
  destruct Hout. eapply list_elem_of_lookup_2, Hat.
Qed.

Lemma delete_only_occurrence (array : list Title) (i : nat) (t : Title) :
  NoDup array -> array !! i = Some t -> t ∉ delete i array.
Proof.
  intros Hnd Hi. rewrite delete_take_drop.
  rewrite <- (take_drop_middle array i t Hi) in Hnd.
  apply NoDup_app in Hnd as (_ & Hleft & Hright).
  apply NoDup_cons in Hright as [Hright _].
  rewrite elem_of_app. intros [Hin|Hin]; [|done].
  apply (Hleft t Hin). by left.
Qed.

Lemma arrays_move_index (array : list Title) (i j : nat) (t : Title) :
  NoDup array -> array !! i = Some t -> (j < length array)%nat ->
  indexOf (arrays_move array i j) t = Z.of_nat j.
Proof.
  intros Hnd Hi Hj. apply indexOf_first; [by apply arrays_move_lookup|].
  intros k Hk Hat. unfold arrays_move in Hat. rewrite Hi in Hat.
  rewrite decide_True in Hat by done. unfold arrays_insert in Hat.
  assert (Hlen : length (delete i array) = (length array - 1)%nat)
    by (apply length_delete; by eexists).
  rewrite lookup_app_l in Hat by (rewrite length_take; lia).
  rewrite lookup_take_lt in Hat by done.
  apply (delete_only_occurrence array i t Hnd Hi).
  eapply list_elem_of_lookup_2, Hat.
Qed.

Lemma delete_keeps_others {A} (array : list A) (i : nat) (t x : A) :
  array !! i = Some t -> x ∈ array -> x ≠ t -> x ∈ delete i array.
Proof.
  intros Hi Hin Hne. rewrite <- (take_drop_middle array i t Hi) in Hin.
  rewrite delete_take_drop. rewrite elem_of_app in *.
  rewrite elem_of_cons in Hin. tauto.
Qed.

(** ** Releasing the mouse *)

Ltac release_cases this :=
  unfold releaseMouse, _releaseMouse;
  let data := fresh "data" in
  destruct (_dragData this) as [data|] eqn:?;
  [ destruct (dragActive data) eqn:?;
    [ destruct (cursorGrab data) eqn:?;
      [ destruct (tab data) eqn:? | ] | ] | ];
  simpl.

Lemma _releaseMouse_idle (this : TabBar) :
  _dragData this = None -> _releaseMouse this = (Normal, this).
Proof. intros Hidle. unfold _releaseMouse. by rewrite Hidle. Qed.

Lemma _releaseMouse_normal (this : TabBar) :
  releasable this <-> (_releaseMouse this).1 = Normal.
Proof.
  unfold releasable. split.
  - intros Hok. release_cases this; try done.
    + destruct (Hok data eq_refl) as [_ [? ?]]; congruence.
    + destruct (Hok data eq_refl) as [[? ?] _]; congruence.
  - release_cases this; intros Hn data' Hdata Hactive;
      try discriminate; simplify_eq; eauto; congruence.
Qed.

(** What a release leaves alone, and that it always closes the session. *)
Lemma _releaseMouse_frame (this : TabBar) :
  let this' := (_releaseMouse this).2 in
  _dragData this' = None ∧
  _titles this' = _titles this ∧
  currentTitle this' = currentTitle this ∧
  _dirty this' = _dirty this ∧
  _tabsMovable this' = _tabsMovable this ∧
  connected this' = connected this ∧
  updateRequests this' = updateRequests this ∧
  emitted this' = emitted this.
Proof. release_cases this; by repeat split. Qed.

Lemma _releaseMouse_releasable (this : TabBar) :
  releasable (_releaseMouse this).2.
Proof.
  intros data Hdata.
  destruct (_releaseMouse_frame this) as [Hnone _]. simpl in Hnone. congruence.
Qed.

Lemma idle_releasable (this : TabBar) : _dragData this = None -> releasable this.
Proof. intros Hidle data Hdata. congruence. Qed.

Lemma sessionIdle_releasable (this : TabBar) : sessionIdle this -> releasable this.
Proof. intros Hidle data Hdata Hactive. rewrite (Hidle data Hdata) in Hactive. done. Qed.

Lemma twoTabsPressed_releasable : releasable twoTabsPressed.
Proof. apply sessionIdle_releasable. intros data [= <-]. reflexivity. Qed.

Lemma seq_release (k : M) (this : TabBar) :
  releasable this -> seq _releaseMouse k this = k (released this).
Proof.
  intros Hok. apply _releaseMouse_normal in Hok. unfold seq, released.
  destruct (_releaseMouse this) as [c this']. simpl in *. by subst c.
Qed.


Lemma filter_drops (type : string) (l : list string) :
  type ∉ filter (λ u, u ≠ type) l.
Proof. rewrite list_elem_of_filter. tauto. Qed.

Lemma filter_keeps_out (type other : string) (l : list string) :
  other ∉ l -> other ∉ filter (λ u, u ≠ type) l.
Proof. rewrite list_elem_of_filter. tauto. Qed.

Lemma _releaseMouse_capture (this : TabBar) :
  is_Some (_dragData this) ->
  ("mouseup" ∉ documentCapture (_releaseMouse this).2) ∧
  ("mousemove" ∉ documentCapture (_releaseMouse this).2).
Proof.
  intros [data' Hdata]. release_cases this; try congruence;
    (split; [apply filter_keeps_out|]; apply filter_drops).
Qed.

(** C9. [releaseMouse()] is idempotent and safe when no session is open:
    without a session it changes nothing; in every state a second call
    right after the first changes nothing more; the first call always
    leaves the session reference cleared, and it leaves the tab bar
    without its capture listeners on the document, both when a session was
    open (they are removed) and when none was and none were installed. *)
Theorem releaseMouse_idempotent (this : TabBar) :
  (_dragData this = None -> releaseMouse this = (Normal, this)) ∧
  releaseMouse (releaseMouse this).2 = (Normal, (releaseMouse this).2) ∧
  _dragData (releaseMouse this).2 = None ∧
  ((_dragData this = None -> documentCapture this = []) ->
   ("mouseup" ∉ documentCapture (releaseMouse this).2) ∧
   ("mousemove" ∉ documentCapture (releaseMouse this).2)).
Proof.
  unfold releaseMouse.
  destruct (_releaseMouse_frame this) as [Hclosed _]. simpl in Hclosed.
  split; [apply _releaseMouse_idle|].
  split; [by apply _releaseMouse_idle|].
  split; [done|].
  intros Hquiet. destruct (_dragData this) as [data|] eqn:Hdata.
  - apply _releaseMouse_capture. rewrite Hdata. by eexists.
  - rewrite (_releaseMouse_idle this Hdata). simpl. rewrite Hquiet; [|done].
    split; apply not_elem_of_nil.
Qed.

Lemma releaseMouse_idempotent_witness :
  is_Some (_dragData twoTabsPressed) ∧
  documentCapture twoTabsPressed = ["mouseup"; "mousemove"] ∧
  releaseMouse (releaseMouse twoTabsPressed).2
    = (Normal, (releaseMouse twoTabsPressed).2) ∧
  _dragData (releaseMouse twoTabsPressed).2 = None ∧
  ("mouseup" ∉ documentCapture (releaseMouse twoTabsPressed).2) ∧
  ("mousemove" ∉ documentCapture (releaseMouse twoTabsPressed).2).
Proof.
  destruct (releaseMouse_idempotent twoTabsPressed) as (_ & Htwice & Hnone & Hcap).
  split; [by eexists|]. split; [reflexivity|].
  split; [exact Htwice|]. split; [exact Hnone|].
  apply Hcap. intros Hidle. discriminate Hidle.
Defined.

(** ** The current title *)

Lemma coerce_member (owner : TabBar) (t : Title) :
  t ∈ _titles owner -> coerceCurrentTitle owner (Some t) = Some t.
Proof.
  intros Hin. unfold coerceCurrentTitle, titleIndex.
  destruct (Z.eqb_spec (indexOf (_titles owner) t) (-1)) as [Habs|]; [|done].
  by apply indexOf_absent in Habs.
Qed.


Lemma coerce_valid (owner : TabBar) (value : option Title) (t : Title) :
  coerceCurrentTitle owner value = Some t -> t ∈ _titles owner.
Proof.
  unfold coerceCurrentTitle, titleIndex. destruct value as [v|]; [|done].
  destruct (Z.eqb_spec (indexOf (_titles owner) v) (-1)) as [|Hin]; [done|].
  intros [= ->]. destruct (decide (t ∈ _titles owner)) as [|Hout]; [done|].
  by apply indexOf_absent in Hout.
Qed.


Lemma set_currentTitle_value (value : option Title) (owner : TabBar) :
  currentTitle (set_currentTitle value owner) = coerceCurrentTitle owner value.
Proof. unfold set_currentTitle. by case_decide. Qed.

Lemma set_currentTitle_frame (value : option Title) (owner : TabBar) :
  let owner' := set_currentTitle value owner in
  _titles owner' = _titles owner ∧ _dragData owner' = _dragData owner ∧
  _dirty owner' = _dirty owner ∧ _tabsMovable owner' = _tabsMovable owner ∧
  connected owner' = connected owner ∧
  documentCapture owner' = documentCapture owner ∧
  children owner' = children owner ∧
  draggingClass owner' = draggingClass owner ∧
  disposedGrabs owner' = disposedGrabs owner.
Proof. unfold set_currentTitle. by case_decide. Qed.

Lemma set_currentTitle_emitted (value : option Title) (owner : TabBar) :
  emitted (set_currentTitle value owner) =
  emitted owner ++
    (if decide (currentTitle owner = coerceCurrentTitle owner value) then []
     else [CurrentChanged (currentTitle owner) (coerceCurrentTitle owner value)]).
Proof.
  unfold set_currentTitle. case_decide; simpl; [by rewrite app_nil_r|done].
Qed.

(** After any assignment the current title is [null] or a member. *)
Lemma set_currentTitle_valid (value : option Title) (owner : TabBar) (t : Title) :
  currentTitle (set_currentTitle value owner) = Some t ->
  t ∈ _titles (set_currentTitle value owner).
Proof.
  rewrite set_currentTitle_value.
  destruct (set_currentTitle_frame value owner) as [-> _].
  apply coerce_valid.
Qed.




(** ** Inserting and moving *)


Lemma connect_frame (t : Title) (this : TabBar) :
  _titles (connect t this) = _titles this ∧
  currentTitle (connect t this) = currentTitle this ∧
  _dragData (connect t this) = _dragData this ∧
  emitted (connect t this) = emitted this.
Proof. unfold connect. by case_decide. Qed.

(** The two ways through [insertTitle], once the mouse is released. *)
Lemma insertTitle_new (this : TabBar) (index : Z) (t : Title) :
  releasable this -> t ∉ _titles this ->
  let j := Z.max 0 (Z.min (toInt32 index) (titleCount this)) in
  let s := connect t (with_titles (released this)
             (arrays_insert (_titles this) (Z.to_nat j) t)) in
  insertTitle index t this =
  (Normal,
   markDirty (if decide (currentTitle this = None)
              then set_currentTitle (Some t) s else s)).
Proof.
  intros Hok Hout j s. unfold insertTitle. rewrite seq_release by done.
  destruct (_releaseMouse_frame this) as (_ & Ht & Hc & _).
  fold (released this) in Ht, Hc.
  unfold titleIndex, titleCount in *. rewrite Ht.
  apply indexOf_absent in Hout. rewrite Hout. simpl.
  destruct (connect_frame t (with_titles (released this)
    (arrays_insert (_titles this) (Z.to_nat j) t))) as (_ & Hcs & _).
  fold s in Hcs. fold j. fold s. rewrite Hcs. simpl. rewrite Hc.
  by case_decide.
Qed.

Lemma insertTitle_member (this : TabBar) (index : Z) (t : Title) :
  releasable this -> t ∈ _titles this ->
  let i := titleIndex this t in
  let j := Z.max 0 (Z.min (toInt32 index) (titleCount this - 1)) in
  0 <= i < titleCount this ∧ 0 <= j < titleCount this ∧
  _titles this !! Z.to_nat i = Some t ∧
  insertTitle index t this =
  if decide (i = j) then (Normal, released this)
  else (Normal,
        markDirty (with_titles (released this)
          (arrays_move (_titles this) (Z.to_nat i) (Z.to_nat j)))).
Proof.
  intros Hok Hin i j. unfold insertTitle. rewrite seq_release by done.
  destruct (_releaseMouse_frame this) as (_ & Ht & _).
  fold (released this) in Ht.
  apply member_index in Hin.
  destruct (indexOf_present _ _ _ eq_refl Hin) as [Hrange Hat].
  subst i j. unfold titleIndex, titleCount in *. rewrite Ht.
  set (i := indexOf (_titles this) t) in *.
  set (n := Z.of_nat (length (_titles this))) in *.
  destruct (Z.eqb_spec i (-1)) as [|_]; [done|]. simpl.
  assert (Hj : (if 0 `max` (toInt32 index `min` n) =? n
                then 0 `max` (toInt32 index `min` n) - 1
                else 0 `max` (toInt32 index `min` n))
               = 0 `max` (toInt32 index `min` (n - 1))).
  { destruct (Z.eqb_spec (0 `max` (toInt32 index `min` n)) n); lia. }
  rewrite Hj. split; [done|]. split; [lia|]. split; [done|].
  case_decide as Heq.
  - by rewrite <- Heq, Z.eqb_refl.
  - by destruct (Z.eqb_spec i (0 `max` (toInt32 index `min` (n - 1)))).
Qed.




(** C7, counterexample.  After [addTitle(A)] and [currentTitle = null]
    the bar is not empty and has no current title; inserting B, a
    subsequent title, changes the current title, to B. *)
Lemma insertTitle_current_counterexample :
  let this :=
    (run plainPage [AddTitle titleA; SetCurrentTitle None] newTabBar).2 in
  _titles this = [titleA] ∧
  currentTitle this = None ∧
  currentTitle (insertTitle 1 titleB this).2 = Some titleB.
Proof. split; [reflexivity|]. split; reflexivity. Qed.

(** C7, as amended.  An insertion makes the title current exactly when
    the title is not yet a member and there is no current title, as for
    the first title of a new tab bar; every other insertion, and every
    move of a member, leaves the current title as it is. *)
Theorem insertTitle_current (this : TabBar) (index : Z) (t : Title) :
  releasable this ->
  (insertTitle index t this).1 = Normal ∧
  currentTitle (insertTitle index t this).2 =
    if decide (currentTitle this = None ∧ t ∉ _titles this)
    then Some t else currentTitle this.
Proof.
  intros Hok.
  destruct (_releaseMouse_frame this) as (_ & _ & Hc & _).
  fold (released this) in Hc.
  destruct (decide (t ∈ _titles this)) as [Hin|Hout].
  - destruct (insertTitle_member this index t Hok Hin) as (_ & _ & _ & ->).
    rewrite (decide_False (P := _ ∧ _)) by tauto.
    by case_decide.
  - rewrite (insertTitle_new this index t Hok Hout). cbn [fst snd].
    split; [done|].
    set (s := connect t _).
    assert (Hcs : currentTitle s = currentTitle this).
    { subst s. by destruct (connect_frame t (with_titles (released this)
        (arrays_insert (_titles this) (Z.to_nat (0 `max` (toInt32 index `min`
          titleCount this))) t))) as (_ & -> & _). }
    assert (Hin : t ∈ _titles s).
    { subst s. destruct (connect_frame t (with_titles (released this)
        (arrays_insert (_titles this) (Z.to_nat (0 `max` (toInt32 index `min`
          titleCount this))) t))) as (-> & _).
      simpl. apply arrays_insert_elem_of. by left. }
    destruct (currentTitle this) as [c|] eqn:Hcur.
    + rewrite decide_False by done.
      by rewrite decide_False by (by intros [? _]).
    + rewrite decide_True by done. rewrite decide_True by done.
      simpl. rewrite set_currentTitle_value. by apply coerce_member.
Qed.

Lemma insertTitle_current_witness :
  releasable barAB ∧
  currentTitle (insertTitle 0 titleC barAB).2 = currentTitle barAB.
Proof.
  assert (Hok : releasable barAB) by (by apply idle_releasable).
  split; [exact Hok|].
  destruct (insertTitle_current barAB 0 titleC Hok) as [_ ->].
  reflexivity.
Defined.

(** ** Removing *)

Lemma disconnect_frame (t : Title) (this : TabBar) :
  _titles (disconnect t this) = _titles this ∧
  currentTitle (disconnect t this) = currentTitle this ∧
  _dragData (disconnect t this) = _dragData this ∧
  emitted (disconnect t this) = emitted this.
Proof. done. Qed.

Lemma removeTitleAt_out_of_range (this : TabBar) (index : Z) :
  releasable this ->
  ¬ (0 <= toInt32 index < titleCount this) ->
  removeTitleAt index this = (Normal, released this).
Proof.
  intros Hok Hout. unfold removeTitleAt. rewrite seq_release by done.
  destruct (_releaseMouse_frame this) as (_ & Ht & _).
  fold (released this) in Ht. unfold titleCount in *. rewrite Ht.
  destruct (Z.ltb_spec (toInt32 index) 0); [done|].
  destruct (Z.geb_spec (toInt32 index) (Z.of_nat (length (_titles this))));
    [done|lia].
Qed.

Lemma removeTitleAt_in_range (this : TabBar) (index : Z) (t : Title) :
  releasable this ->
  titleAt this (toInt32 index) = Some t ->
  let s := disconnect t (with_titles (released this)
             (delete (Z.to_nat (toInt32 index)) (_titles this))) in
  removeTitleAt index this =
  (Normal,
   markDirty
     (if decide (currentTitle this = Some t)
      then set_currentTitle
             (match titleAt s (toInt32 index) with
              | Some next => Some next
              | None => titleAt s (toInt32 index - 1)
              end) s
      else s)).
Proof.
  intros Hok Hat s. unfold removeTitleAt. rewrite seq_release by done.
  destruct (_releaseMouse_frame this) as (_ & Ht & Hc & _).
  fold (released this) in Ht, Hc. unfold titleAt in Hat.
  apply at_index_Some in Hat as [Hrange Hat].
  unfold titleCount. rewrite Ht.
  destruct (Z.ltb_spec (toInt32 index) 0); [lia|].
  destruct (Z.geb_spec (toInt32 index) (Z.of_nat (length (_titles this))));
    [lia|].
  simpl. unfold arrays_removeAt. rewrite Hat. simpl. rewrite Hc.
  by case_decide.
Qed.







(** ** Clicks *)

Lemma hitTestFrom_bounds (nodes : list TabNode) (k x y : Z) :
  hitTestFrom nodes k x y = -1 ∨
  k <= hitTestFrom nodes k x y < k + Z.of_nat (length nodes).
Proof.
  revert k. induction nodes as [|n rest IH]; intros k; simpl; [by left|].
  destruct (hitTest n x y); [right; lia|].
  destruct (IH (k + 1)) as [->|Hin]; [by left|right; lia].
Qed.

Lemma hitTestTabs_bounds (owner : TabBar) (x y i : Z) :
  hitTestTabs owner x y = i -> 0 <= i ->
  i < Z.of_nat (length (children owner)).
Proof.
  unfold hitTestTabs. intros <- Hi.
  destruct (hitTestFrom_bounds (children owner) 0 x y); lia.
Qed.

Lemma closeIconNode_hit (owner : TabBar) (x y i : Z) :
  hitTestTabs owner x y = i -> 0 <= i -> is_Some (closeIconNode owner i).
Proof.
  intros Hhit Hi. pose proof (hitTestTabs_bounds owner x y i Hhit Hi) as Hlt.
  unfold closeIconNode, at_index. destruct (Z.ltb_spec i 0); [lia|].
  destruct (lookup_lt_is_Some_2 (children owner) (Z.to_nat i)) as [n ->];
    [lia|by eexists].
Qed.

(** C8.  A left click on a tab has its propagation stopped, whatever the
    tab.  [tabCloseRequested] is emitted, with the title of that tab, when
    the title is closable and the target of the click lies in the tab's
    close icon; in every other case the tab bar is left as it is, and so
    nothing is emitted. *)
Theorem click_close_request
    (page : Page) (event : MouseEvent) (this : TabBar) (i : Z) :
  type event = "click" ->
  button event = 0 ->
  hitTestTabs this (clientX event) (clientY event) = i ->
  0 <= i ->
  let '(_, event', this') := handleEvent page event this in
  propagationStopped event' = true ∧
  this' = match titleAt this i with
          | Some t =>
              if closable page t && onCloseIcon page this i event
              then emit (TabCloseRequested t) this
              else this
          | None => this
          end.
Proof.
  intros Htype Hbutton Hhit Hi.
  destruct (closeIconNode_hit this _ _ i Hhit Hi) as [icon Hicon].
  unfold handleEvent. rewrite decide_True by done.
  unfold _evtClick, onCloseIcon. rewrite Hbutton, Hhit, Hicon. simpl.
  destruct (Z.ltb_spec i 0); [lia|].
  destruct (titleAt this i) as [t|]; [|done].
  destruct (closable page t); simpl; [|done].
  by destruct (contains page icon (target event)).
Qed.

Lemma click_close_request_witness :
  let event := mkMouseEvent "click" 0 50 10 11%nat false false in
  hitTestTabs twoTabs (clientX event) (clientY event) = 0 ∧
  let '(_, event', this') := handleEvent pageClosableA event twoTabs in
  propagationStopped event' = true ∧
  this' = emit (TabCloseRequested titleA) twoTabs.
Proof.
  split; [reflexivity|].
  exact (click_close_request pageClosableA
           (mkMouseEvent "click" 0 50 10 11%nat false false) twoTabs 0
           eq_refl eq_refl eq_refl (Z.le_refl 0)).
Defined.

(** ** Presses, moves and releases *)

(** The handler leaves every event that is neither a click nor a press
    alone, and the tab bar with it. *)
Lemma handleEvent_other (page : Page) (event : MouseEvent) (this : TabBar) :
  type event ≠ "click" -> type event ≠ "mousedown" ->
  handleEvent page event this = (Normal, event, this).
Proof.
  intros Hc Hd. unfold handleEvent. by rewrite !decide_False by done.
Qed.

(** C1, at the failing input.  On the two-tab bar [A, B] a left press on
    B, a move to the left past the midpoint of A and a release: the handler
    has no case for the move and the release, so both leave the tab bar as
    the press left it.  The collection is still [A, B], the one signal
    emitted is the [currentChanged] of the press, and the drag session of
    the press stays open. *)
Theorem drag_release_moves_nothing :
  let gesture :=
    [HandleEvent pressB; HandleEvent (mouseMove 20 10);
     HandleEvent (mouseUp 20 10)] in
  let after := (run plainPage gesture twoTabs).2 in
  _titles twoTabs = [titleA; titleB] ∧
  after = twoTabsPressed ∧
  _titles after = [titleA; titleB] ∧
  emitted after = emitted twoTabs ++ [CurrentChanged (Some titleA) (Some titleB)] ∧
  (tabIndex <$> _dragData after) = Some 1 ∧
  (tabTargetIndex <$> _dragData after) = Some (-1).
Proof. repeat split; reflexivity. Qed.

(** C2, at the failing input.  On the two-tab bar, whose content starts
    at the left edge 0, a left press on B, a move past the drag threshold,
    a move 30 pixels beyond the left edge and a further move: the handler
    has no case for a move, so nothing is emitted after the press and the
    session never records a detach request. *)
Theorem tear_off_requests_nothing :
  let gesture :=
    [HandleEvent pressB; HandleEvent (mouseMove 140 10);
     HandleEvent (mouseMove (-30) 10); HandleEvent (mouseMove (-60) 10)] in
  let after := (run plainPage gesture twoTabs).2 in
  DRAG_THRESHOLD < 150 - 140 ∧
  TEAR_OFF_THRESHOLD < 0 - (-30) ∧
  after = twoTabsPressed ∧
  emitted after = emitted twoTabs ++ [CurrentChanged (Some titleA) (Some titleB)] ∧
  (detachRequested <$> _dragData after) = Some false ∧
  (dragActive <$> _dragData after) = Some false.
Proof. repeat split; reflexivity. Qed.

(** ** What every call preserves *)

Lemma sameSession_refl (a : TabBar) : sameSession a a.
Proof. by split. Qed.

Lemma sameSession_trans (a b c : TabBar) :
  sameSession a b -> sameSession b c -> sameSession a c.
Proof. intros [? ?] [? ?]. split; congruence. Qed.

Lemma sameSession_consistent (a b : TabBar) :
  sameSession a b -> consistent a -> consistent b.
Proof.
  intros [Hd Hc] [Hidle Hknown Hquiet].
  split; unfold sessionIdle, captureQuiet in *; rewrite <- ?Hd, <- ?Hc; done.
Qed.

Lemma markDirty_session (this : TabBar) : sameSession this (markDirty this).
Proof. by split. Qed.

Lemma connect_session (t : Title) (this : TabBar) : sameSession this (connect t this).
Proof. unfold connect. case_decide; by split. Qed.

Lemma disconnect_session (t : Title) (this : TabBar) :
  sameSession this (disconnect t this).
Proof. by split. Qed.

Lemma with_titles_session (this : TabBar) (v : list Title) :
  sameSession this (with_titles this v).
Proof. by split. Qed.

Lemma emit_session (e : Emission) (this : TabBar) : sameSession this (emit e this).
Proof. by split. Qed.

Lemma set_currentTitle_session (value : option Title) (this : TabBar) :
  sameSession this (set_currentTitle value this).
Proof. unfold set_currentTitle. case_decide; by split. Qed.

Lemma clearLoop_session (fuel : nat) (this : TabBar) :
  sameSession this (clearLoop fuel this).
Proof.
  revert this. induction fuel as [|fuel IH]; intros this; simpl;
    [apply sameSession_refl|].
  destruct (last (_titles this)) as [t|]; [|apply sameSession_refl].
  eapply sameSession_trans; [|apply IH]. by split.
Qed.

Lemma consistent_new : consistent newTabBar.
Proof. split; [intros data Hdata; discriminate Hdata| |done].
  intros type Hin. by apply elem_of_nil in Hin. Qed.

Lemma consistent_releasable (this : TabBar) : consistent this -> releasable this.
Proof. intros [Hidle _ _]. by apply sessionIdle_releasable. Qed.

Lemma filter_known (l : list string) :
  (∀ type, type ∈ l -> type = "mouseup" ∨ type = "mousemove") ->
  filter (λ u, u ≠ "mousemove") (filter (λ u, u ≠ "mouseup") l) = [].
Proof.
  intros Hknown. induction l as [|x l IH]; [done|].
  assert (Hl : ∀ type, type ∈ l -> type = "mouseup" ∨ type = "mousemove").
  { intros type Hin. apply Hknown. by right. }
  destruct (Hknown x) as [->| ->]; [by left| |].
  - rewrite filter_cons_False by (by intros ?). by apply IH.
  - rewrite filter_cons_True by done.
    rewrite filter_cons_False by (by intros ?). by apply IH.
Qed.

(** In a consistent tab bar the release of the mouse completes, and the
    bar is then without a session and without a document listener. *)
Lemma _releaseMouse_consistent (this : TabBar) :
  consistent this ->
  (_releaseMouse this).1 = Normal ∧
  _dragData (released this) = None ∧
  documentCapture (released this) = [].
Proof.
  intros [Hidle Hknown Hquiet]. unfold released, _releaseMouse.
  destruct (_dragData this) as [data|] eqn:Hdata.
  - rewrite (Hidle data Hdata). simpl. split; [done|]. split; [done|].
    by apply filter_known.
  - simpl. split; [done|]. split; [done|]. by apply Hquiet.
Qed.

Lemma unheld_consistent (this : TabBar) :
  _dragData this = None -> documentCapture this = [] -> consistent this.
Proof.
  intros Hd Hc. split.
  - intros data Hdata. congruence.
  - intros type. rewrite Hc. intros Hin. by apply elem_of_nil in Hin.
  - by intros _.
Qed.

(** A mutator, which releases the mouse and then works on the titles
    alone, keeps a consistent tab bar consistent. *)
Lemma mutator_consistent (k : M) (this : TabBar) :
  (∀ s, sameSession s (k s).2) ->
  consistent this -> consistent (seq _releaseMouse k this).2.
Proof.
  intros Hk Hcons.
  rewrite seq_release by (by apply consistent_releasable).
  destruct (_releaseMouse_consistent this Hcons) as (_ & Hd & Hc).
  eapply sameSession_consistent; [apply Hk|]. by apply unheld_consistent.
Qed.

Ltac session :=
  lazymatch goal with
  | |- sameSession ?a ?a => apply sameSession_refl
  | |- sameSession _ (markDirty _) =>
      eapply sameSession_trans; [|apply markDirty_session]; session
  | |- sameSession _ (connect _ _) =>
      eapply sameSession_trans; [|apply connect_session]; session
  | |- sameSession _ (disconnect _ _) =>
      eapply sameSession_trans; [|apply disconnect_session]; session
  | |- sameSession _ (with_titles _ _) =>
      eapply sameSession_trans; [|apply with_titles_session]; session
  | |- sameSession _ (emit _ _) =>
      eapply sameSession_trans; [|apply emit_session]; session
  | |- sameSession _ (set_currentTitle _ _) =>
      eapply sameSession_trans; [|apply set_currentTitle_session]; session
  | |- sameSession _ (clearLoop _ _) =>
      eapply sameSession_trans; [|apply clearLoop_session]; session
  end.

Lemma insertTitle_consistent (index : Z) (t : Title) (this : TabBar) :
  consistent this -> consistent (insertTitle index t this).2.
Proof.
  unfold insertTitle. apply mutator_consistent. intros s.
  repeat case_match; cbn [fst snd]; session.
Qed.

Lemma removeTitleAt_consistent (index : Z) (this : TabBar) :
  consistent this -> consistent (removeTitleAt index this).2.
Proof.
  unfold removeTitleAt. apply mutator_consistent. intros s.
  unfold arrays_removeAt. repeat case_match; simplify_eq; cbn [fst snd]; session.
Qed.

Lemma clearTitles_consistent (this : TabBar) :
  consistent this -> consistent (clearTitles this).2.
Proof.
  unfold clearTitles. apply mutator_consistent. intros s.
  cbn [fst snd]. session.
Qed.

Lemma releaseMouse_consistent (this : TabBar) :
  consistent this -> consistent (releaseMouse this).2.
Proof.
  intros Hcons. destruct (_releaseMouse_consistent this Hcons) as (_ & Hd & Hc).
  by apply unheld_consistent.
Qed.

Lemma press_capture (this : TabBar) (data : DragData) :
  documentCapture this = [] ->
  let s := addDocumentListener "mousemove"
             (addDocumentListener "mouseup" (with_dragData this (Some data))) in
  _dragData s = Some data ∧ documentCapture s = ["mouseup"; "mousemove"].
Proof.
  intros Hquiet. unfold addDocumentListener at 2. simpl. rewrite Hquiet.
  destruct (decide ("mouseup" ∈ [])) as [Hin|_]; [by apply elem_of_nil in Hin|].
  unfold addDocumentListener. simpl.
  destruct (decide ("mousemove" ∈ ["mouseup"])) as [Hin|_]; [|done].
  apply list_elem_of_singleton in Hin. discriminate Hin.
Qed.

Lemma handleEvent_consistent
    (page : Page) (event : MouseEvent) (this : TabBar) :
  consistent this -> consistent (handleEvent page event this).2.
Proof.
  intros Hcons. unfold handleEvent. repeat case_decide; [| |done].
  - unfold _evtClick. repeat case_match; cbn [fst snd]; try done.
    eapply sameSession_consistent; [apply emit_session|done].
  - unfold _evtMouseDown.
    destruct (negb (button event =? 0)); [done|].
    case_bool_decide as Hopen; [done|].
    assert (Hnone : _dragData this = None).
    { destruct (_dragData this); [destruct Hopen; by eexists|done]. }
    destruct (hitTestTabs this (clientX event) (clientY event) <? 0); [done|].
    destruct (closeIconNode this _) as [icon|]; [|done].
    destruct (contains page icon _); [done|].
    destruct (_tabsMovable this).
    + destruct (at_index (children this) _) as [n|]; [|done]. cbn [fst snd].
      eapply sameSession_consistent; [apply set_currentTitle_session|].
      destruct Hcons as [_ _ Hquiet]. specialize (Hquiet Hnone).
      match goal with
      | |- consistent (addDocumentListener _ (addDocumentListener _
             (with_dragData _ (Some ?data)))) =>
          destruct (press_capture this data Hquiet) as [Hd Hc]
      end.
      split.
      * intros data. rewrite Hd. intros [= <-]. done.
      * intros type. rewrite Hc, !elem_of_cons, elem_of_nil. tauto.
      * intros Hidle. rewrite Hd in Hidle. discriminate Hidle.
    + cbn [fst snd].
      eapply sameSession_consistent; [apply set_currentTitle_session|done].
Qed.

(** Every call keeps a consistent tab bar consistent. *)
Lemma call_consistent (page : Page) (c : Call) (this : TabBar) :
  consistent this -> consistent (call page c this).2.
Proof.
  intros Hcons. destruct c; simpl.
  - by apply insertTitle_consistent.
  - by apply insertTitle_consistent.
  - by apply removeTitleAt_consistent.
  - by apply removeTitleAt_consistent.
  - by apply clearTitles_consistent.
  - by apply releaseMouse_consistent.
  - eapply sameSession_consistent; [apply set_currentTitle_session|done].
  - eapply sameSession_consistent; [|done]. by split.
  - eapply sameSession_consistent; [apply markDirty_session|done].
  - pose proof (handleEvent_consistent page event this Hcons) as Hh.
    by destruct (handleEvent page event this) as [[c e] s].
Qed.

(** So is every tab bar that calls make of a new one: the mouse can
    always be released there. *)
Lemma run_consistent (page : Page) (calls : list Call) (this : TabBar) :
  consistent this -> consistent (run page calls this).2.
Proof.
  revert this. induction calls as [|c rest IH]; intros this Hcons; [done|].
  simpl. unfold seq.
  pose proof (call_consistent page c this Hcons) as Hstep.
  destruct (call page c this) as [[|] s]; [by apply IH|done].
Qed.

Lemma run_releasable (page : Page) (calls : list Call) :
  releasable (run page calls newTabBar).2.
Proof. apply consistent_releasable, run_consistent, consistent_new. Qed.

(** ** Where the current title stays a member *)

Lemma insertTitle_members (index : Z) (t x : Title) (this : TabBar) :
  releasable this ->
  x ∈ _titles (insertTitle index t this).2 <-> x = t ∨ x ∈ _titles this.
Proof.
  intros Hok.
  destruct (_releaseMouse_frame this) as (_ & Ht & _).
  fold (released this) in Ht.
  destruct (decide (t ∈ _titles this)) as [Hin|Hout].
  - destruct (insertTitle_member this index t Hok Hin) as (_ & _ & _ & ->).
    assert (Hiff : x ∈ _titles this <-> x = t ∨ x ∈ _titles this).
    { split; [by right|]. by intros [->|]. }
    case_decide; cbn [snd]; [by rewrite Ht|].
    simpl. by rewrite arrays_move_elem_of.
  - rewrite (insertTitle_new this index t Hok Hout). cbn [snd].
    set (s := connect t _).
    assert (Hts : _titles s = arrays_insert (_titles this)
              (Z.to_nat (0 `max` (toInt32 index `min` titleCount this))) t).
    { subst s. by destruct (connect_frame t (with_titles (released this)
        (arrays_insert (_titles this) (Z.to_nat (0 `max` (toInt32 index `min`
          titleCount this))) t))) as (-> & _). }
    assert (Ht2 : _titles (markDirty (if decide (currentTitle this = None)
                                      then set_currentTitle (Some t) s else s))
                  = _titles s).
    { case_decide; [|done].
      by destruct (set_currentTitle_frame (Some t) s) as (<- & _). }
    rewrite Ht2, Hts. apply arrays_insert_elem_of.
Qed.

Lemma insertTitle_currentTitle (index : Z) (t : Title) (this : TabBar) :
  releasable this ->
  currentTitle (insertTitle index t this).2 = currentTitle this ∨
  currentTitle (insertTitle index t this).2 = Some t.
Proof.
  intros Hok.
  destruct (_releaseMouse_frame this) as (_ & _ & Hc & _).
  fold (released this) in Hc.
  destruct (decide (t ∈ _titles this)) as [Hin|Hout].
  - destruct (insertTitle_member this index t Hok Hin) as (_ & _ & _ & ->).
    left. by case_decide.
  - rewrite (insertTitle_new this index t Hok Hout). cbn [snd].
    set (s := connect t _).
    assert (Hcs : currentTitle s = currentTitle this).
    { subst s. by destruct (connect_frame t (with_titles (released this)
        (arrays_insert (_titles this) (Z.to_nat (0 `max` (toInt32 index `min`
          titleCount this))) t))) as (_ & -> & _). }
    case_decide; [|by left]. simpl. rewrite set_currentTitle_value.
    unfold coerceCurrentTitle. case_match; [by right|by left].
Qed.

Lemma insertTitle_selectionValid (index : Z) (t : Title) (this : TabBar) :
  releasable this -> selectionValid this ->
  selectionValid (insertTitle index t this).2.
Proof.
  intros Hok Hvalid c Hc. rewrite insertTitle_members by done.
  destruct (insertTitle_currentTitle index t this Hok) as [Hsame|Hnew].
  - right. apply Hvalid. congruence.
  - left. congruence.
Qed.

Lemma removeTitleAt_selectionValid (index : Z) (this : TabBar) :
  releasable this -> selectionValid this ->
  selectionValid (removeTitleAt index this).2.
Proof.
  intros Hok Hvalid.
  destruct (titleAt this (toInt32 index)) as [t|] eqn:Hat.
  - rewrite (removeTitleAt_in_range this index t Hok Hat). cbn [snd].
    intros c. case_decide as Hcur.
    + apply set_currentTitle_valid.
    + destruct (_releaseMouse_frame this) as (_ & _ & Hc & _).
      fold (released this) in Hc. simpl. rewrite Hc. intros Hcc.
      apply at_index_Some in Hat as [_ Hat].
      apply (delete_keeps_others _ _ t); [done|by apply Hvalid|congruence].
  - rewrite removeTitleAt_out_of_range; [|done|].
    + intros c. cbn [snd]. unfold released.
      destruct (_releaseMouse_frame this) as (_ & -> & -> & _). apply Hvalid.
    + intros Hin. unfold titleAt, titleCount in *.
      destruct (lookup_lt_is_Some_2 (_titles this) (Z.to_nat (toInt32 index)))
        as [t Ht]; [lia|].
      assert (at_index (_titles this) (toInt32 index) = Some t)
        by (by apply at_index_Some).
      congruence.
Qed.

(** Insertions, removals and assignments keep the current title [null] or
    a member; [clearTitles] is the call that does not. *)
Lemma selectionValid_kept (page : Page) (c : Call) (this : TabBar) :
  c ≠ ClearTitles -> (∀ event, c ≠ HandleEvent event) ->
  releasable this -> selectionValid this ->
  selectionValid (call page c this).2.
Proof.
  intros Hclear Hevent Hok Hvalid. destruct c; simpl; try done.
  - by apply insertTitle_selectionValid.
  - by apply insertTitle_selectionValid.
  - by apply removeTitleAt_selectionValid.
  - by apply removeTitleAt_selectionValid.
  - intros c. unfold releaseMouse.
    destruct (_releaseMouse_frame this) as (_ & -> & -> & _). apply Hvalid.
  - intros c. apply set_currentTitle_valid.
  - by destruct (Hevent event).
Qed.

(** The loop of [clearTitles] runs until the array is empty. *)
Lemma clearLoop_empties (fuel : nat) (this : TabBar) :
  (length (_titles this) <= fuel)%nat -> _titles (clearLoop fuel this) = [].
Proof.
  revert this. induction fuel as [|fuel IH]; intros this Hlen; simpl.
  - destruct (_titles this); [done|simpl in Hlen; lia].
  - destruct (_titles this) as [|t rest] eqn:Ht using rev_ind; [done|].
    rewrite last_snoc. apply IH. simpl.
    rewrite removelast_last. rewrite length_app in Hlen. simpl in Hlen. lia.
Qed.

Lemma clearLoop_currentTitle (fuel : nat) (this : TabBar) :
  currentTitle (clearLoop fuel this) = currentTitle this.
Proof.
  revert this. induction fuel as [|fuel IH]; intros this; simpl; [done|].
  destruct (last (_titles this)); [|done]. by rewrite IH.
Qed.

(** [clearTitles] completes, empties the collection and leaves the stored
    current title as it finds it. *)
Lemma clearTitles_result (this : TabBar) :
  releasable this ->
  (clearTitles this).1 = Normal ∧
  _titles (clearTitles this).2 = [] ∧
  currentTitle (clearTitles this).2 = currentTitle this.
Proof.
  intros Hok. unfold clearTitles. rewrite seq_release by done.
  destruct (_releaseMouse_frame this) as (_ & _ & Hc & _).
  fold (released this) in Hc. cbn [fst snd].
  split; [done|]. split.
  - simpl. by apply clearLoop_empties.
  - simpl. by rewrite clearLoop_currentTitle.
Qed.

(** C3, at the failing input.  After [addTitle(A)] on a new tab bar, A is
    current; [clearTitles()] then empties the collection and leaves A
    stored as the current title, which is neither [null] nor a member. *)
Theorem clearTitles_keeps_current :
  let after := (run plainPage [AddTitle titleA; ClearTitles] newTabBar).2 in
  _titles after = [] ∧
  currentTitle after = Some titleA ∧
  ¬ selectionValid after.
Proof.
  split; [reflexivity|]. split; [reflexivity|].
  intros Hvalid. specialize (Hvalid titleA eq_refl).
  vm_compute in Hvalid. by apply elem_of_nil in Hvalid.
Qed.

(** ** The collection: uniqueness, order and round trips *)

Lemma arrays_insert_Permutation {A} (array : list A) (j : nat) (value : A) :
  arrays_insert array j value ≡ₚ value :: array.
Proof.
  unfold arrays_insert. rewrite <- Permutation_middle.
  by rewrite take_drop.
Qed.

Lemma arrays_move_Permutation {A} (array : list A) (i j : nat) :
  arrays_move array i j ≡ₚ array.
Proof.
  unfold arrays_move. destruct (array !! i) as [value|] eqn:Hi; [|done].
  case_decide; [|done]. rewrite arrays_insert_Permutation.
  rewrite delete_take_drop.
  rewrite <- (take_drop_middle array i value Hi) at 3.
  by rewrite <- Permutation_middle.
Qed.

Lemma arrays_move_back {A} (array : list A) (i j : nat) :
  (i < length array)%nat -> (j < length array)%nat ->
  arrays_move (arrays_move array i j) j i = array.
Proof.
  intros Hi Hj.
  destruct (lookup_lt_is_Some_2 array i Hi) as [value Hat].
  assert (Hmid : arrays_move array i j !! j = Some value)
    by (by apply arrays_move_lookup).
  unfold arrays_move at 1. rewrite Hmid.
  rewrite decide_True by (by rewrite arrays_move_length).
  rewrite arrays_move_delete by (done || by eexists).
  unfold arrays_insert. rewrite delete_take_drop.
  assert (Hlen : length (take i array) = i) by (rewrite length_take; lia).
  rewrite take_app_length' by done.
  rewrite drop_app_length' by done.
  by apply take_drop_middle.
Qed.

Lemma delete_NoDup {A} (array : list A) (i : nat) :
  NoDup array -> NoDup (delete i array).
Proof. intros Hnd. eapply sublist_NoDup; [done|apply sublist_delete]. Qed.

(** The title collection after an insertion. *)
Lemma insertTitle_titles (this : TabBar) (index : Z) (t : Title) :
  releasable this ->
  (insertTitle index t this).1 = Normal ∧
  _dragData (insertTitle index t this).2 = None ∧
  _titles (insertTitle index t this).2 =
    if decide (t ∈ _titles this)
    then arrays_move (_titles this) (Z.to_nat (titleIndex this t))
           (Z.to_nat (0 `max` (toInt32 index `min` (titleCount this - 1))))
    else arrays_insert (_titles this)
           (Z.to_nat (0 `max` (toInt32 index `min` titleCount this))) t.
Proof.
  intros Hok.
  destruct (_releaseMouse_frame this) as (Hd & Ht & _).
  fold (released this) in Hd, Ht.
  destruct (decide (t ∈ _titles this)) as [Hin|Hout].
  - destruct (insertTitle_member this index t Hok Hin) as (Hi & Hj & Hat & ->).
    case_decide as Heq; cbn [fst snd]; [|done].
    split; [done|]. split; [done|]. rewrite Ht, <- Heq.
    unfold arrays_move. rewrite Hat.
    rewrite decide_True by (unfold titleCount in Hi; lia).
    unfold arrays_insert. rewrite delete_take_drop.
    assert (Hlen : length (take (Z.to_nat (titleIndex this t)) (_titles this))
                   = Z.to_nat (titleIndex this t))
      by (rewrite length_take; unfold titleCount in Hi; lia).
    rewrite take_app_length' by done. rewrite drop_app_length' by done.
    symmetry. by apply take_drop_middle.
  - rewrite (insertTitle_new this index t Hok Hout). cbn [fst snd].
    split; [done|].
    set (s := connect t _).
    assert (Hs : _titles s = arrays_insert (_titles this)
              (Z.to_nat (0 `max` (toInt32 index `min` titleCount this))) t
            ∧ _dragData s = None).
    { subst s. destruct (connect_frame t (with_titles (released this)
        (arrays_insert (_titles this) (Z.to_nat (0 `max` (toInt32 index `min`
          titleCount this))) t))) as (-> & _ & -> & _). by split. }
    destruct Hs as [Hts Hds].
    case_decide; [|by split].
    destruct (set_currentTitle_frame (Some t) s) as (Ht' & Hd' & _).
    simpl. by rewrite Ht', Hd'.
Qed.

(** The title collection and the connections after a removal. *)
Lemma removeTitleAt_titles (this : TabBar) (index : Z) :
  releasable this ->
  (removeTitleAt index this).1 = Normal ∧
  _dragData (removeTitleAt index this).2 = None ∧
  match titleAt this (toInt32 index) with
  | Some t =>
      _titles (removeTitleAt index this).2
        = delete (Z.to_nat (toInt32 index)) (_titles this) ∧
      connected (removeTitleAt index this).2
        = filter (λ u, u ≠ t) (connected this)
  | None =>
      removeTitleAt index this = (Normal, released this)
  end.
Proof.
  intros Hok.
  destruct (_releaseMouse_frame this) as (Hd & Ht & _ & _ & _ & Hn & _).
  fold (released this) in Hd, Ht, Hn.
  destruct (titleAt this (toInt32 index)) as [t|] eqn:Hat.
  - rewrite (removeTitleAt_in_range this index t Hok Hat). cbn [fst snd].
    split; [done|]. set (s := disconnect t _).
    assert (Hs : _dragData s = None ∧
                 _titles s = delete (Z.to_nat (toInt32 index)) (_titles this) ∧
                 connected s = filter (λ u, u ≠ t) (connected this)).
    { subst s. unfold disconnect. simpl. by rewrite Hn. }
    destruct Hs as (Hds & Hts & Hns).
    case_decide; [|done].
    destruct (set_currentTitle_frame
      (match titleAt s (toInt32 index) with
       | Some next => Some next
       | None => titleAt s (toInt32 index - 1)
       end) s) as (Ht' & Hd' & _ & _ & Hn' & _).
    simpl. by rewrite Ht', Hd', Hn'.
  - assert (Hout : ¬ (0 <= toInt32 index < titleCount this)).
    { intros Hin. unfold titleAt, titleCount in *.
      destruct (lookup_lt_is_Some_2 (_titles this) (Z.to_nat (toInt32 index)))
        as [t Ht']; [lia|].
      assert (at_index (_titles this) (toInt32 index) = Some t)
        by (by apply at_index_Some).
      congruence. }
    rewrite (removeTitleAt_out_of_range this index Hok Hout). by cbn.
Qed.

Lemma connect_elem_of (t x : Title) (this : TabBar) :
  x ∈ connected (connect t this) <-> x = t ∨ x ∈ connected this.
Proof.
  unfold connect. case_decide as Hin; simpl.
  - split; [by right|]. by intros [->|].
  - rewrite elem_of_app, list_elem_of_singleton. tauto.
Qed.

Lemma clearLoop_connected (fuel : nat) (this : TabBar) :
  (length (_titles this) <= fuel)%nat ->
  ∀ x, x ∈ connected (clearLoop fuel this) <->
       x ∈ connected this ∧ x ∉ _titles this.
Proof.
  revert this. induction fuel as [|fuel IH]; intros this Hlen x; simpl.
  - destruct (_titles this); [|simpl in Hlen; lia].
    split; [intros Hin; split; [done|apply not_elem_of_nil]|by intros [? _]].
  - destruct (_titles this) as [|t rest _] eqn:Ht using rev_ind.
    + simpl. split; [intros Hin; split; [done|apply not_elem_of_nil]|by intros [? _]].
    + rewrite last_snoc. rewrite IH.
      * simpl. rewrite removelast_last, list_elem_of_filter, elem_of_app,
          list_elem_of_singleton. tauto.
      * simpl. rewrite removelast_last. rewrite length_app in Hlen.
        simpl in Hlen. lia.
Qed.

(** No DOM event touches the collection, the connections, the dirty flag,
    the movable flag or the tab nodes. *)
Lemma handleEvent_frame (page : Page) (event : MouseEvent) (this : TabBar) :
  let after := (handleEvent page event this).2 in
  _titles after = _titles this ∧ connected after = connected this ∧
  _dirty after = _dirty this ∧ _tabsMovable after = _tabsMovable this ∧
  children after = children this.
Proof.
  unfold handleEvent. repeat case_decide; [| |done].
  - unfold _evtClick. by repeat case_match.
  - unfold _evtMouseDown.
    destruct (negb (button event =? 0)); [done|].
    case_bool_decide; [done|].
    destruct (hitTestTabs this (clientX event) (clientY event) <? 0); [done|].
    destruct (closeIconNode this _) as [icon|]; [|done].
    destruct (contains page icon _); [done|].
    destruct (_tabsMovable this) eqn:Hm.
    + destruct (at_index (children this) _) as [n|]; [|done]. cbn [fst snd].
      match goal with
      | |- context [set_currentTitle ?v ?s] =>
          destruct (set_currentTitle_frame v s)
            as (-> & _ & -> & -> & -> & _ & -> & _)
      end.
      unfold addDocumentListener. by repeat case_decide.
    + cbn [fst snd].
      match goal with
      | |- context [set_currentTitle ?v ?s] =>
          destruct (set_currentTitle_frame v s)
            as (-> & _ & -> & -> & -> & _ & -> & _)
      end.
      done.
Qed.

Lemma insertTitle_connected (this : TabBar) (index : Z) (t x : Title) :
  releasable this ->
  x ∈ connected (insertTitle index t this).2 <->
  x ∈ connected this ∨ (x = t ∧ t ∉ _titles this).
Proof.
  intros Hok.
  destruct (_releaseMouse_frame this) as (_ & _ & _ & _ & _ & Hn & _).
  fold (released this) in Hn.
  destruct (decide (t ∈ _titles this)) as [Hin|Hout].
  - destruct (insertTitle_member this index t Hok Hin) as (_ & _ & _ & ->).
    case_decide; cbn [snd]; simpl; rewrite Hn; tauto.
  - rewrite (insertTitle_new this index t Hok Hout). cbn [snd].
    set (s := connect t _).
    assert (Hs : x ∈ connected s <-> x = t ∨ x ∈ connected this).
    { subst s. rewrite connect_elem_of. simpl. by rewrite Hn. }
    assert (Hc : connected (markDirty (if decide (currentTitle this = None)
                                       then set_currentTitle (Some t) s else s))
                 = connected s).
    { case_decide; [|done].
      by destruct (set_currentTitle_frame (Some t) s) as (_ & _ & _ & _ & <- & _). }
    rewrite Hc, Hs. tauto.
Qed.

Lemma clearTitles_connected (this : TabBar) (x : Title) :
  releasable this ->
  x ∈ connected (clearTitles this).2 <-> x ∈ connected this ∧ x ∉ _titles this.
Proof.
  intros Hok. unfold clearTitles. rewrite seq_release by done.
  destruct (_releaseMouse_frame this) as (_ & Ht & _ & _ & _ & Hn & _).
  fold (released this) in Ht, Hn. cbn [snd]. simpl.
  rewrite clearLoop_connected by done. by rewrite Ht, Hn.
Qed.

(** X1.  The members stay pairwise different: whatever is called on a tab
    bar without a repeated title, the collection afterwards has none;
    inserting a member moves it. *)
Theorem titles_stay_unique (page : Page) (c : Call) (this : TabBar) :
  releasable this ->
  NoDup (_titles this) ->
  NoDup (_titles (call page c this).2).
Proof.
  intros Hok Hnd.
  assert (Hins : ∀ index t, NoDup (_titles (insertTitle index t this).2)).
  { intros index t. destruct (insertTitle_titles this index t Hok) as (_ & _ & ->).
    case_decide as Hin.
    - by rewrite arrays_move_Permutation.
    - rewrite arrays_insert_Permutation. by apply NoDup_cons.
  }
  assert (Hrem : ∀ index, NoDup (_titles (removeTitleAt index this).2)).
  { intros index. destruct (removeTitleAt_titles this index Hok) as (_ & _ & Hcase).
    destruct (titleAt this (toInt32 index)).
    - destruct Hcase as [-> _]. by apply delete_NoDup.
    - rewrite Hcase. cbn [snd]. unfold released.
      by destruct (_releaseMouse_frame this) as (_ & -> & _). }
  destruct c; simpl.
  - apply Hins.
  - apply Hins.
  - apply Hrem.
  - apply Hrem.
  - destruct (clearTitles_result this Hok) as (_ & -> & _). apply NoDup_nil_2.
  - unfold releaseMouse. by destruct (_releaseMouse_frame this) as (_ & -> & _).
  - by destruct (set_currentTitle_frame value this) as (-> & _).
  - done.
  - done.
  - by destruct (handleEvent_frame page event this) as (Ht & _);
      destruct (handleEvent page event this) as [[? ?] ?]; simpl in *; rewrite Ht.
Qed.

Lemma titles_stay_unique_witness :
  releasable twoTabsPressed ∧ NoDup (_titles twoTabsPressed) ∧
  NoDup (_titles (call plainPage (AddTitle titleA) twoTabsPressed).2).
Proof.
  assert (Hnd : NoDup (_titles twoTabsPressed)).
  { change (NoDup [titleA; titleB]). apply NoDup_cons.
    split; [rewrite list_elem_of_singleton; discriminate|apply NoDup_singleton]. }
  split; [exact twoTabsPressed_releasable|]. split; [exact Hnd|].
  exact (titles_stay_unique plainPage (AddTitle titleA) twoTabsPressed
           twoTabsPressed_releasable Hnd).
Defined.

(** X2.  The connections follow the members: on a tab bar whose members
    are pairwise different and are exactly the titles whose [changed]
    signal is connected, every call leaves the connected titles exactly the
    members.  A title is connected when it is inserted and disconnected
    when it is removed or the collection is cleared. *)
Theorem connections_follow_members (page : Page) (c : Call) (this : TabBar) :
  releasable this ->
  NoDup (_titles this) ->
  (∀ t, t ∈ connected this <-> t ∈ _titles this) ->
  ∀ t, t ∈ connected (call page c this).2 <-> t ∈ _titles (call page c this).2.
Proof.
  intros Hok Hnd Hconn.
  assert (Hins : ∀ index t x, x ∈ connected (insertTitle index t this).2
                              <-> x ∈ _titles (insertTitle index t this).2).
  { intros index t x. rewrite insertTitle_connected by done.
    destruct (insertTitle_titles this index t Hok) as (_ & _ & ->).
    case_decide as Hin.
    - rewrite arrays_move_elem_of, Hconn. tauto.
    - rewrite arrays_insert_elem_of, Hconn. tauto. }
  assert (Hrem : ∀ index x, x ∈ connected (removeTitleAt index this).2
                            <-> x ∈ _titles (removeTitleAt index this).2).
  { intros index x.
    destruct (removeTitleAt_titles this index Hok) as (_ & _ & Hcase).
    destruct (titleAt this (toInt32 index)) as [t|] eqn:Hat.
    - destruct Hcase as [-> ->]. apply at_index_Some in Hat as [_ Hat].
      rewrite list_elem_of_filter, Hconn. split.
      + intros [Hne Hin]. by apply (delete_keeps_others _ _ t).
      + intros Hin. split.
        * intros ->. by apply (delete_only_occurrence _ _ _ Hnd Hat).
        * eapply elem_of_sublist; [done|apply sublist_delete].
    - rewrite Hcase. cbn [snd]. unfold released.
      destruct (_releaseMouse_frame this) as (_ & -> & _ & _ & _ & -> & _).
      apply Hconn. }
  intros x. destruct c; simpl.
  - apply Hins.
  - apply Hins.
  - apply Hrem.
  - apply Hrem.
  - rewrite clearTitles_connected by done.
    destruct (clearTitles_result this Hok) as (_ & -> & _).
    rewrite Hconn, elem_of_nil. tauto.
  - unfold releaseMouse.
    destruct (_releaseMouse_frame this) as (_ & -> & _ & _ & _ & -> & _).
    apply Hconn.
  - destruct (set_currentTitle_frame value this) as (-> & _ & _ & _ & -> & _).
    apply Hconn.
  - apply Hconn.
  - apply Hconn.
  - destruct (handleEvent_frame page event this) as (Ht & Hn & _).
    destruct (handleEvent page event this) as [[? ?] ?]; simpl in *.
    rewrite Ht, Hn. apply Hconn.
Qed.

Lemma connections_follow_members_witness :
  releasable twoTabsPressed ∧ NoDup (_titles twoTabsPressed) ∧
  (∀ t, t ∈ connected twoTabsPressed <-> t ∈ _titles twoTabsPressed) ∧
  (∀ t, t ∈ connected (call plainPage (RemoveTitle titleA) twoTabsPressed).2
        <-> t ∈ _titles (call plainPage (RemoveTitle titleA) twoTabsPressed).2).
Proof.
  assert (Hnd : NoDup (_titles twoTabsPressed)).
  { change (NoDup [titleA; titleB]). apply NoDup_cons.
    split; [rewrite list_elem_of_singleton; discriminate|apply NoDup_singleton]. }
  assert (Hconn : ∀ t, t ∈ connected twoTabsPressed <-> t ∈ _titles twoTabsPressed).
  { intros t. reflexivity. }
  split; [exact twoTabsPressed_releasable|]. split; [exact Hnd|].
  split; [exact Hconn|].
  exact (connections_follow_members plainPage (RemoveTitle titleA) twoTabsPressed
           twoTabsPressed_releasable Hnd Hconn).
Defined.

(** X3.  [addTitle] puts the title last.  On a tab bar with fewer than
    [2^31] titles the title is afterwards the last one: a new title is
    appended, a member is moved to the last slot and the count stays. *)
Theorem addTitle_last (this : TabBar) (t : Title) :
  releasable this ->
  titleCount this < 2 ^ 31 ->
  (addTitle t this).1 = Normal ∧
  last (_titles (addTitle t this).2) = Some t ∧
  (t ∉ _titles this -> _titles (addTitle t this).2 = _titles this ++ [t]) ∧
  (t ∈ _titles this ->
   length (_titles (addTitle t this).2) = length (_titles this)).
Proof.
  intros Hok Hn. unfold addTitle.
  destruct (insertTitle_titles this (titleCount this) t Hok) as (Hc & _ & Ht).
  assert (H32 : toInt32 (titleCount this) = titleCount this).
  { apply toInt32_small. unfold titleCount in *. lia. }
  rewrite H32 in Ht. rewrite Ht. split; [done|].
  destruct (decide (t ∈ _titles this)) as [Hin|Hout].
  - pose proof Hin as Hi. apply member_index in Hi.
    destruct (indexOf_present _ _ _ eq_refl Hi) as [Hrange Hat].
    unfold titleIndex, titleCount in *.
    set (i := indexOf (_titles this) t) in *.
    set (n := length (_titles this)) in *.
    replace (Z.to_nat (0 `max` (Z.of_nat n `min` (Z.of_nat n - 1))))
      with (pred n) by lia.
    split; [|split; [done|intros _; apply arrays_move_length]].
    rewrite last_lookup, arrays_move_length. fold n.
    apply arrays_move_lookup; [done|]. fold n. lia.
  - unfold titleCount.
    replace (Z.to_nat (0 `max` (Z.of_nat (length (_titles this))
                                `min` Z.of_nat (length (_titles this)))))
      with (length (_titles this)) by lia.
    unfold arrays_insert. rewrite take_ge, drop_ge by lia.
    split; [by rewrite last_snoc|]. split; [done|]. by intros Hin.
Qed.

Lemma addTitle_last_witness :
  releasable twoTabsPressed ∧ titleCount twoTabsPressed < 2 ^ 31 ∧
  last (_titles (addTitle titleA twoTabsPressed).2) = Some titleA.
Proof.
  assert (Hn : titleCount twoTabsPressed < 2 ^ 31) by (vm_compute; reflexivity).
  split; [exact twoTabsPressed_releasable|]. split; [exact Hn|].
  exact (proj1 (proj2 (addTitle_last twoTabsPressed titleA
                         twoTabsPressed_releasable Hn))).
Defined.

(** X4.  [removeTitle] takes the title out.  On a tab bar of pairwise
    different titles, at most [2^31] of them, the title is afterwards not
    a member and every other title is a member as before; for a title that
    was not a member the call does nothing but release the mouse. *)
Theorem removeTitle_removes (this : TabBar) (t : Title) :
  releasable this ->
  NoDup (_titles this) ->
  titleCount this <= 2 ^ 31 ->
  (removeTitle t this).1 = Normal ∧
  titleIndex (removeTitle t this).2 t = -1 ∧
  (∀ x, x ≠ t -> x ∈ _titles (removeTitle t this).2 <-> x ∈ _titles this) ∧
  (t ∉ _titles this -> removeTitle t this = (Normal, released this)).
Proof.
  intros Hok Hnd Hn. unfold removeTitle.
  destruct (removeTitleAt_titles this (titleIndex this t) Hok) as (Hc & _ & Hcase).
  split; [done|].
  assert (Hrel : _titles (released this) = _titles this).
  { unfold released. by destruct (_releaseMouse_frame this) as (_ & -> & _). }
  destruct (decide (t ∈ _titles this)) as [Hin|Hout].
  - pose proof Hin as Hi. apply member_index in Hi.
    destruct (indexOf_present _ _ _ eq_refl Hi) as [Hrange Hat].
    unfold titleIndex, titleCount in *.
    set (i := indexOf (_titles this) t) in *.
    assert (H32 : toInt32 i = i) by (apply toInt32_small; lia).
    rewrite H32 in Hcase.
    assert (Hti : titleAt this i = Some t) by (by apply at_index_Some).
    rewrite Hti in Hcase. destruct Hcase as [-> _].
    split; [|split; [|done]].
    + apply indexOf_absent. by apply delete_only_occurrence.
    + intros x Hne. split.
      * intros Hx. eapply elem_of_sublist; [done|apply sublist_delete].
      * intros Hx. by apply (delete_keeps_others _ _ t).
  - pose proof Hout as Hi. apply indexOf_absent in Hi.
    unfold titleIndex in *. rewrite Hi in Hcase |- *.
    change (titleAt this (toInt32 (-1))) with (@None Title) in Hcase.
    rewrite Hcase. cbn [snd]. rewrite Hrel.
    split; [done|]. split; [done|done].
Qed.

Lemma removeTitle_removes_witness :
  releasable twoTabsPressed ∧ NoDup (_titles twoTabsPressed) ∧
  titleCount twoTabsPressed <= 2 ^ 31 ∧
  titleIndex (removeTitle titleB twoTabsPressed).2 titleB = -1.
Proof.
  assert (Hnd : NoDup (_titles twoTabsPressed)).
  { change (NoDup [titleA; titleB]). apply NoDup_cons.
    split; [rewrite list_elem_of_singleton; discriminate|apply NoDup_singleton]. }
  assert (Hn : titleCount twoTabsPressed <= 2 ^ 31) by (vm_compute; discriminate).
  split; [exact twoTabsPressed_releasable|]. split; [exact Hnd|].
  split; [exact Hn|].
  exact (proj1 (proj2 (removeTitle_removes twoTabsPressed titleB
                         twoTabsPressed_releasable Hnd Hn))).
Defined.

(** X5.  The accessors agree.  [titleIndex] is [-1] exactly for a title
    that is not a member; for a member it is a valid index at which
    [titleAt] finds the title; among pairwise different titles it is the
    index at which [titleAt] finds it; and [titleAt] gives nothing exactly
    outside [[0, titleCount)]. *)
Theorem accessors_agree (this : TabBar) (t : Title) (i : Z) :
  (titleIndex this t = -1 <-> t ∉ _titles this) ∧
  (t ∈ _titles this ->
   0 <= titleIndex this t < titleCount this ∧
   titleAt this (titleIndex this t) = Some t) ∧
  (NoDup (_titles this) -> titleAt this i = Some t -> titleIndex this t = i) ∧
  (titleAt this i = None <-> i < 0 ∨ titleCount this <= i).
Proof.
  unfold titleIndex, titleAt, titleCount.
  split; [apply indexOf_absent|]. split; [|split].
  - intros Hin. apply member_index in Hin.
    destruct (indexOf_present _ _ _ eq_refl Hin) as [Hrange Hat].
    split; [done|]. by apply at_index_Some.
  - intros Hnd Hat. apply at_index_Some in Hat as [Hrange Hat].
    rewrite (indexOf_first _ _ (Z.to_nat i)); [lia|done|].
    intros j Hj Hat'. pose proof (NoDup_lookup _ _ _ _ Hnd Hat Hat'). lia.
  - unfold at_index. destruct (Z.ltb_spec i 0).
    + split; [by left|done].
    + rewrite lookup_ge_None. lia.
Qed.

Lemma accessors_agree_witness :
  titleA ∈ _titles barAB ∧ NoDup (_titles barAB) ∧
  titleAt barAB 1 = Some titleB ∧
  titleAt barAB (titleIndex barAB titleA) = Some titleA ∧
  titleIndex barAB titleB = 1.
Proof.
  assert (Hin : titleA ∈ _titles barAB) by (vm_compute; apply list_elem_of_here).
  assert (Hnd : NoDup (_titles barAB)).
  { change (NoDup [titleA; titleB]). apply NoDup_cons.
    split; [rewrite list_elem_of_singleton; discriminate|apply NoDup_singleton]. }
  assert (Hat : titleAt barAB 1 = Some titleB) by reflexivity.
  destruct (accessors_agree barAB titleA 0) as (_ & Hmember & _).
  destruct (accessors_agree barAB titleB 1) as (_ & _ & Hunique & _).
  split; [exact Hin|]. split; [exact Hnd|]. split; [exact Hat|].
  split; [exact (proj2 (Hmember Hin))|exact (Hunique Hnd Hat)].
Defined.

Lemma coerce_same_titles (a b : TabBar) (value : option Title) :
  _titles a = _titles b -> coerceCurrentTitle a value = coerceCurrentTitle b value.
Proof. intros Heq. unfold coerceCurrentTitle, titleIndex. by rewrite Heq. Qed.

(** X6.  Assigning the current title twice is assigning it once: the
    second assignment of the same value changes nothing and emits nothing,
    whatever the value and the tab bar. *)
Theorem set_currentTitle_idempotent (value : option Title) (this : TabBar) :
  set_currentTitle value (set_currentTitle value this)
  = set_currentTitle value this.
Proof.
  set (s := set_currentTitle value this).
  assert (Hc : currentTitle s = coerceCurrentTitle s value).
  { subst s. rewrite set_currentTitle_value. apply coerce_same_titles.
    by destruct (set_currentTitle_frame value this) as (-> & _). }
  unfold set_currentTitle at 1. rewrite <- Hc.
  rewrite decide_True by done. by destruct s.
Qed.

(** X7.  Assigning a member that is not the current title selects it: the
    member becomes the current title, one update is requested and
    [currentChanged] is emitted once, with the old and the new title; the
    collection is untouched. *)
Theorem set_currentTitle_selects (this : TabBar) (t : Title) :
  t ∈ _titles this ->
  currentTitle this ≠ Some t ->
  let after := set_currentTitle (Some t) this in
  currentTitle after = Some t ∧
  emitted after = emitted this ++ [CurrentChanged (currentTitle this) (Some t)] ∧
  updateRequests after = S (updateRequests this) ∧
  _titles after = _titles this ∧
  _dirty after = _dirty this.
Proof.
  intros Hin Hne after. subst after.
  rewrite set_currentTitle_value, set_currentTitle_emitted.
  rewrite (coerce_member _ _ Hin). rewrite decide_False by done.
  split; [done|]. split; [done|].
  unfold set_currentTitle. rewrite (coerce_member _ _ Hin).
  by rewrite decide_False by done.
Qed.

Lemma set_currentTitle_selects_witness :
  titleB ∈ _titles barAB ∧ currentTitle barAB ≠ Some titleB ∧
  currentTitle (set_currentTitle (Some titleB) barAB) = Some titleB.
Proof.
  assert (Hin : titleB ∈ _titles barAB).
  { vm_compute. apply list_elem_of_further, list_elem_of_here. }
  assert (Hne : currentTitle barAB ≠ Some titleB) by discriminate.
  split; [exact Hin|]. split; [exact Hne|].
  exact (proj1 (set_currentTitle_selects barAB titleB Hin Hne)).
Defined.

(** X8.  Inserting a new title and removing it again gives the collection
    back: on a tab bar with fewer than [2^31] titles, whatever the index,
    [removeTitle] after [insertTitle] of a title that was not a member
    restores the titles in their order and leaves the title disconnected. *)
Theorem insert_then_remove (this : TabBar) (index : Z) (t : Title) :
  releasable this ->
  t ∉ _titles this ->
  titleCount this < 2 ^ 31 ->
  let after := removeTitle t (insertTitle index t this).2 in
  after.1 = Normal ∧
  _titles after.2 = _titles this ∧
  t ∉ connected after.2.
Proof.
  intros Hok Hout Hn after. subst after.
  destruct (insertTitle_titles this index t Hok) as (_ & Hd & Ht).
  rewrite decide_False in Ht by done.
  set (s1 := (insertTitle index t this).2) in *.
  set (j := 0 `max` (toInt32 index `min` titleCount this)) in *.
  assert (Hj : 0 <= j <= titleCount this) by (unfold j, titleCount; lia).
  assert (Hjl : (Z.to_nat j <= length (_titles this))%nat)
    by (unfold titleCount in Hj; lia).
  assert (Hok1 : releasable s1) by (by apply idle_releasable).
  assert (Hidx : titleIndex s1 t = j).
  { unfold titleIndex. rewrite Ht, arrays_insert_index by done. lia. }
  unfold removeTitle. rewrite Hidx.
  destruct (removeTitleAt_titles s1 j Hok1) as (Hc & _ & Hcase).
  rewrite (toInt32_small j) in Hcase by (unfold titleCount in *; lia).
  assert (Hat : titleAt s1 j = Some t).
  { unfold titleAt. apply at_index_Some. rewrite Ht, arrays_insert_length.
    split; [unfold titleCount in Hj; lia|]. by apply arrays_insert_lookup. }
  rewrite Hat in Hcase. destruct Hcase as [-> ->].
  split; [done|]. split.
  - rewrite Ht. by apply arrays_insert_delete.
  - rewrite list_elem_of_filter. tauto.
Qed.

Lemma insert_then_remove_witness :
  releasable twoTabsPressed ∧ (titleC ∉ _titles twoTabsPressed) ∧
  titleCount twoTabsPressed < 2 ^ 31 ∧
  _titles (removeTitle titleC (insertTitle 1 titleC twoTabsPressed).2).2
  = _titles twoTabsPressed.
Proof.
  assert (Hout : titleC ∉ _titles twoTabsPressed).
  { apply indexOf_absent. reflexivity. }
  assert (Hn : titleCount twoTabsPressed < 2 ^ 31) by (vm_compute; reflexivity).
  split; [exact twoTabsPressed_releasable|]. split; [exact Hout|].
  split; [exact Hn|].
  exact (proj1 (proj2 (insert_then_remove twoTabsPressed 1 titleC
                         twoTabsPressed_releasable Hout Hn))).
Defined.

(** X9.  Moving a member and moving it back restores the order: among
    pairwise different titles, at most [2^31] of them, [insertTitle(j, t)]
    for a valid index [j] followed by [insertTitle(i, t)] for the index [i]
    the member had leaves the collection as it was. *)
Theorem move_and_back (this : TabBar) (t : Title) (i j : Z) :
  releasable this ->
  NoDup (_titles this) ->
  titleCount this <= 2 ^ 31 ->
  titleIndex this t = i -> 0 <= i ->
  0 <= j < titleCount this ->
  _titles (insertTitle i t (insertTitle j t this).2).2 = _titles this.
Proof.
  intros Hok Hnd Hn Hi Hi0 Hj.
  assert (Hne : indexOf (_titles this) t ≠ -1) by (unfold titleIndex in Hi; lia).
  destruct (indexOf_present _ _ _ eq_refl Hne) as [Hrange Hat].
  pose proof Hne as Hin. apply member_index in Hin.
  unfold titleIndex, titleCount in *. rewrite Hi in Hrange, Hat.
  destruct (insertTitle_titles this j t Hok) as (_ & Hd & Ht).
  rewrite decide_True in Ht by done.
  unfold titleIndex, titleCount in Ht. rewrite Hi in Ht.
  rewrite (toInt32_small j) in Ht by lia.
  replace (0 `max` (j `min` (Z.of_nat (length (_titles this)) - 1)))
    with j in Ht by lia.
  set (s1 := (insertTitle j t this).2) in *.
  assert (Hok1 : releasable s1) by (by apply idle_releasable).
  assert (Hlen1 : length (_titles s1) = length (_titles this))
    by (rewrite Ht; apply arrays_move_length).
  assert (Hidx : indexOf (_titles s1) t = j).
  { rewrite Ht, arrays_move_index by (done || lia). lia. }
  assert (Hin1 : t ∈ _titles s1) by (rewrite Ht; by apply arrays_move_elem_of).
  destruct (insertTitle_titles s1 i t Hok1) as (_ & _ & ->).
  rewrite decide_True by done.
  unfold titleIndex, titleCount. rewrite Hidx, Hlen1.
  rewrite (toInt32_small i) by lia.
  replace (0 `max` (i `min` (Z.of_nat (length (_titles this)) - 1)))
    with i by lia.
  rewrite Ht. apply arrays_move_back; lia.
Qed.

Lemma move_and_back_witness :
  releasable twoTabsPressed ∧ NoDup (_titles twoTabsPressed) ∧
  titleCount twoTabsPressed <= 2 ^ 31 ∧
  titleIndex twoTabsPressed titleA = 0 ∧
  _titles (insertTitle 0 titleA (insertTitle 1 titleA twoTabsPressed).2).2
  = _titles twoTabsPressed.
Proof.
  assert (Hnd : NoDup (_titles twoTabsPressed)).
  { change (NoDup [titleA; titleB]). apply NoDup_cons.
    split; [rewrite list_elem_of_singleton; discriminate|apply NoDup_singleton]. }
  assert (Hn : titleCount twoTabsPressed <= 2 ^ 31) by (vm_compute; discriminate).
  assert (Hj : 0 <= 1 < titleCount twoTabsPressed) by (vm_compute; split; [discriminate|reflexivity]).
  split; [exact twoTabsPressed_releasable|]. split; [exact Hnd|].
  split; [exact Hn|]. split; [reflexivity|].
  exact (move_and_back twoTabsPressed titleA 0 1 twoTabsPressed_releasable
           Hnd Hn eq_refl (Z.le_refl 0) Hj).
Defined.

(** ** The handlers *)

Lemma hitTestFrom_find (nodes : list TabNode) (k x y : Z) :
  hitTestFrom nodes k x y =
  match list_find (λ n, hitTest n x y = true) nodes with
  | Some (j, _) => k + Z.of_nat j
  | None => -1
  end.
Proof.
  revert k. induction nodes as [|n rest IH]; intros k; simpl; [done|].
  destruct (hitTest n x y) eqn:Hhit.
  - rewrite decide_True by done. simpl. lia.
  - rewrite decide_False by (by intros ?). rewrite IH.
    destruct (list_find _ rest) as [[j m]|]; simpl; [lia|done].
Qed.

(** X10.  [hitTestTabs] answers with the first tab under the point: the
    result is [-1] exactly when no tab node is hit; otherwise it is the
    index of a tab node that is hit, and no tab node before it is. *)
Theorem hitTestTabs_first (owner : TabBar) (x y : Z) :
  let i := hitTestTabs owner x y in
  (i = -1 <-> ∀ n, n ∈ children owner -> hitTest n x y = false) ∧
  (i ≠ -1 ->
   0 <= i < Z.of_nat (length (children owner)) ∧
   ∃ n, children owner !! Z.to_nat i = Some n ∧ hitTest n x y = true ∧
        ∀ k m, (k < Z.to_nat i)%nat -> children owner !! k = Some m ->
               hitTest m x y = false).
Proof.
  intros i. subst i. unfold hitTestTabs. rewrite hitTestFrom_find.
  destruct (list_find _ (children owner)) as [[j n]|] eqn:Hfind.
  - apply list_find_Some in Hfind as (Hat & Hhit & Hfirst). split.
    + split; [lia|]. intros Hnone.
      rewrite (Hnone n) in Hhit; [done|]. eapply list_elem_of_lookup_2, Hat.
    + intros _. pose proof (lookup_lt_Some _ _ _ Hat). split; [lia|].
      exists n. replace (Z.to_nat (0 + Z.of_nat j)) with j by lia.
      split; [done|]. split; [done|].
      intros k m Hk Hm. specialize (Hfirst k m Hm Hk).
      by destruct (hitTest m x y).
  - apply list_find_None in Hfind. rewrite Forall_forall in Hfind. split.
    + split; [|done]. intros _ n Hin. specialize (Hfind n Hin).
      by destruct (hitTest n x y).
    + done.
Qed.

Lemma hitTestTabs_first_witness :
  hitTestTabs twoTabs 150 10 ≠ -1 ∧
  0 <= hitTestTabs twoTabs 150 10 < Z.of_nat (length (children twoTabs)).
Proof.
  assert (Hhit : hitTestTabs twoTabs 150 10 ≠ -1) by discriminate.
  split; [exact Hhit|].
  exact (proj1 (proj2 (hitTestTabs_first twoTabs 150 10) Hhit)).
Defined.

(** X11.  A click or a press with another button than the left one is
    ignored: the handler leaves the event and the tab bar as they are, so
    it starts no session, changes no current title and emits nothing. *)
Theorem other_buttons_ignored (page : Page) (event : MouseEvent) (this : TabBar) :
  button event ≠ 0 ->
  handleEvent page event this = (Normal, event, this).
Proof.
  intros Hb. unfold handleEvent, _evtClick, _evtMouseDown.
  destruct (Z.eqb_spec (button event) 0) as [|_]; [done|]. simpl.
  by repeat case_decide.
Qed.

Lemma other_buttons_ignored_witness :
  let event := mkMouseEvent "mousedown" 1 150 10 20%nat false false in
  button event ≠ 0 ∧
  handleEvent plainPage event twoTabs = (Normal, event, twoTabs).
Proof.
  assert (Hb : button (mkMouseEvent "mousedown" 1 150 10 20%nat false false) ≠ 0)
    by discriminate.
  split; [exact Hb|].
  exact (other_buttons_ignored plainPage
           (mkMouseEvent "mousedown" 1 150 10 20%nat false false) twoTabs Hb).
Defined.

Lemma addDocumentListener_frame (type : string) (this : TabBar) :
  let after := addDocumentListener type this in
  _titles after = _titles this ∧ _dragData after = _dragData this ∧
  currentTitle after = currentTitle this ∧ emitted after = emitted this ∧
  (∀ x, x ∈ documentCapture after <-> x = type ∨ x ∈ documentCapture this).
Proof.
  unfold addDocumentListener. case_decide as Hin; simpl.
  - do 4 (split; [done|]). intros x. split; [by right|]. by intros [->|].
  - do 4 (split; [done|]). intros x.
    rewrite elem_of_app, list_elem_of_singleton. tauto.
Qed.

Lemma children_hit (owner : TabBar) (x y i : Z) :
  hitTestTabs owner x y = i -> 0 <= i ->
  ∃ n, at_index (children owner) i = Some n ∧ closeIconNode owner i = Some (lastChild n).
Proof.
  intros Hhit Hi. pose proof (hitTestTabs_bounds owner x y i Hhit Hi) as Hlt.
  destruct (lookup_lt_is_Some_2 (children owner) (Z.to_nat i)) as [n Hn]; [lia|].
  exists n. unfold closeIconNode, at_index.
  destruct (Z.ltb_spec i 0); [lia|]. by rewrite Hn.
Qed.

(** X12.  A left press on a tab, outside its close icon, while no session
    is open, selects the tab's title: the event is stopped, the title
    becomes the current title, with one [currentChanged] unless it was
    current already, and the collection is untouched.  With movable tabs
    the press opens a session that records the title, the index of the tab
    and the press point, with no active drag and no detach request, and
    the bar listens on the document for the release and the moves of the
    mouse; without movable tabs no session is opened. *)
Theorem press_selects
    (page : Page) (event : MouseEvent) (this : TabBar) (i : Z) (t : Title) :
  type event = "mousedown" ->
  button event = 0 ->
  _dragData this = None ->
  hitTestTabs this (clientX event) (clientY event) = i ->
  0 <= i ->
  onCloseIcon page this i event = false ->
  titleAt this i = Some t ->
  let '(c, event', after) := handleEvent page event this in
  c = Normal ∧
  propagationStopped event' = true ∧ defaultPrevented event' = true ∧
  currentTitle after = Some t ∧
  emitted after =
    emitted this ++
      (if decide (currentTitle this = Some t) then []
       else [CurrentChanged (currentTitle this) (Some t)]) ∧
  _titles after = _titles this ∧
  if _tabsMovable this then
    (∃ data, _dragData after = Some data ∧
       title data = Some t ∧ tabIndex data = i ∧
       pressX data = clientX event ∧ pressY data = clientY event ∧
       dragActive data = false ∧ detachRequested data = false) ∧
    ("mouseup" ∈ documentCapture after) ∧
    ("mousemove" ∈ documentCapture after)
  else
    _dragData after = None ∧ documentCapture after = documentCapture this.
Proof.
  intros Htype Hbutton Hidle Hhit Hi Hicon Hat.
  destruct (children_hit this _ _ i Hhit Hi) as (n & Hn & Hclose).
  assert (Hin : t ∈ _titles this) by (by apply at_index_elem_of in Hat).
  unfold onCloseIcon in Hicon. rewrite Hclose in Hicon.
  unfold handleEvent.
  rewrite decide_False by (rewrite Htype; discriminate).
  rewrite decide_True by done.
  unfold _evtMouseDown. rewrite Hbutton, Hidle, Hhit, Hclose. simpl.
  destruct (Z.ltb_spec i 0); [lia|]. rewrite Hicon, Hat, Hn.
  destruct (_tabsMovable this); cbn iota beta.
  - match goal with
    | |- context [set_currentTitle (Some t) ?s0] => set (s := s0)
    end.
    assert (Hs : _titles s = _titles this ∧ currentTitle s = currentTitle this ∧
                 emitted s = emitted this ∧
                 (∃ data, _dragData s = Some data ∧
                    title data = Some t ∧ tabIndex data = i ∧
                    pressX data = clientX event ∧ pressY data = clientY event ∧
                    dragActive data = false ∧ detachRequested data = false) ∧
                 ("mouseup" ∈ documentCapture s) ∧
                 ("mousemove" ∈ documentCapture s)).
    { subst s.
      match goal with
      | |- context [addDocumentListener "mousemove" ?s0] =>
          destruct (addDocumentListener_frame "mousemove" s0)
            as (Ht2 & Hd2 & Hc2 & He2 & Hm2);
          match s0 with
          | addDocumentListener "mouseup" ?s1 =>
              destruct (addDocumentListener_frame "mouseup" s1)
                as (Ht1 & Hd1 & Hc1 & He1 & Hm1)
          end
      end.
      simpl in *. rewrite Ht2, Ht1, Hc2, Hc1, He2, He1, Hd2, Hd1.
      split; [done|]. split; [done|]. split; [done|].
      split; [eexists; split; [done|]; by simpl|].
      split; [apply Hm2; right; apply Hm1; by left|apply Hm2; by left]. }
    destruct Hs as (Hts & Hcs & Hes & Hds & Hup & Hmv).
    destruct (set_currentTitle_frame (Some t) s)
      as (Ht' & Hd' & _ & _ & _ & Hdc' & _).
    split; [done|]. split; [done|]. split; [done|].
    split.
    { rewrite set_currentTitle_value. apply coerce_member. by rewrite Hts. }
    split.
    { rewrite set_currentTitle_emitted.
      rewrite (coerce_member s t) by (by rewrite Hts). by rewrite Hes, Hcs. }
    split; [by rewrite Ht'|].
    rewrite Hd', Hdc'. by split.
  - destruct (set_currentTitle_frame (Some t) this)
      as (Ht' & Hd' & _ & _ & _ & Hdc' & _).
    split; [done|]. split; [done|]. split; [done|].
    split; [rewrite set_currentTitle_value; by apply coerce_member|].
    split.
    { rewrite set_currentTitle_emitted. by rewrite (coerce_member this t). }
    split; [done|]. by rewrite Hd', Hdc'.
Qed.

Lemma press_selects_witness :
  hitTestTabs twoTabs (clientX pressB) (clientY pressB) = 1 ∧
  onCloseIcon plainPage twoTabs 1 pressB = false ∧
  titleAt twoTabs 1 = Some titleB ∧
  let '(c, event', after) := handleEvent plainPage pressB twoTabs in
  c = Normal ∧ currentTitle after = Some titleB.
Proof.
  split; [reflexivity|]. split; [reflexivity|]. split; [reflexivity|].
  pose proof (press_selects plainPage pressB twoTabs 1 titleB
                eq_refl eq_refl eq_refl eq_refl ltac:(discriminate)
                eq_refl eq_refl) as Hpress.
  destruct (handleEvent plainPage pressB twoTabs) as [[c event'] after].
  destruct Hpress as (Hc & _ & _ & Hcur & _).
  split; [exact Hc|exact Hcur].
Defined.

(** X13.  When a press is ignored.  While a session is open a press
    changes nothing, neither the event nor the tab bar, so there is at most
    one session; a press that hits no tab changes nothing either; and a
    left press on the close icon of a tab is stopped and leaves the tab bar
    as it is: no title is selected and no session is opened. *)
Theorem press_ignored (page : Page) (event : MouseEvent) (this : TabBar) :
  type event = "mousedown" ->
  (is_Some (_dragData this) ->
   handleEvent page event this = (Normal, event, this)) ∧
  (hitTestTabs this (clientX event) (clientY event) < 0 ->
   handleEvent page event this = (Normal, event, this)) ∧
  (button event = 0 -> _dragData this = None ->
   0 <= hitTestTabs this (clientX event) (clientY event) ->
   onCloseIcon page this (hitTestTabs this (clientX event) (clientY event)) event
     = true ->
   handleEvent page event this
     = (Normal, stopPropagation (preventDefault event), this)).
Proof.
  intros Htype. unfold handleEvent.
  rewrite decide_False by (rewrite Htype; discriminate).
  rewrite decide_True by done. unfold _evtMouseDown.
  split; [|split].
  - intros Hopen. destruct (negb (button event =? 0)); [done|].
    by rewrite bool_decide_true.
  - intros Hmiss. destruct (negb (button event =? 0)); [done|].
    case_bool_decide; [done|].
    by destruct (Z.ltb_spec (hitTestTabs this (clientX event) (clientY event)) 0);
      [|lia].
  - intros Hbutton Hidle Hi Hicon.
    destruct (children_hit this _ _ _ eq_refl Hi) as (n & Hn & Hclose).
    unfold onCloseIcon in Hicon. rewrite Hclose in Hicon.
    rewrite Hbutton, Hidle, Hclose. simpl.
    destruct (Z.ltb_spec (hitTestTabs this (clientX event) (clientY event)) 0);
      [lia|].
    by rewrite Hicon.
Qed.

Lemma press_ignored_witness :
  type pressB = "mousedown" ∧ is_Some (_dragData twoTabsPressed) ∧
  handleEvent plainPage pressB twoTabsPressed = (Normal, pressB, twoTabsPressed).
Proof.
  assert (Hopen : is_Some (_dragData twoTabsPressed)) by (by eexists).
  split; [reflexivity|]. split; [exact Hopen|].
  exact (proj1 (press_ignored plainPage pressB twoTabsPressed eq_refl) Hopen).
Defined.

(** X14.  The one way the handler throws.  A call of [handleEvent] ends
    in a [TypeError] exactly when the event is a left click on a tab node
    whose index has no title, as after a removal that is not yet rendered;
    the click is stopped before and the tab bar is left as it is.  A press
    never throws. *)
Theorem handleEvent_throws (page : Page) (event : MouseEvent) (this : TabBar) :
  let i := hitTestTabs this (clientX event) (clientY event) in
  ((handleEvent page event this).1.1 = TypeError <->
   type event = "click" ∧ button event = 0 ∧ 0 <= i ∧ titleAt this i = None) ∧
  ((handleEvent page event this).1.1 = TypeError ->
   handleEvent page event this
     = (TypeError, stopPropagation (preventDefault event), this)).
Proof.
  intros i.
  assert (Hgen : ∀ (r : Completion * MouseEvent * TabBar) (P : Prop),
             r.1.1 = Normal -> ¬ P ->
             (r.1.1 = TypeError <-> P) ∧
             (r.1.1 = TypeError ->
              r = (TypeError, stopPropagation (preventDefault event), this))).
  { intros r P Hr HP. rewrite Hr. split; [split; [done|tauto]|done]. }
  unfold handleEvent.
  destruct (decide (type event = "click")) as [Hclick|Hclick].
  - unfold _evtClick. fold i.
    destruct (Z.eqb_spec (button event) 0) as [Hb|Hb];
      [|apply Hgen; [done|tauto]].
    destruct (Z.ltb_spec i 0) as [Hi|Hi]; [apply Hgen; [done|lia]|].
    destruct (children_hit this _ _ i eq_refl Hi) as (n & _ & Hclose).
    rewrite Hclose.
    destruct (titleAt this i) as [t|] eqn:Hat.
    + apply Hgen; [by repeat case_match|by intros (_ & _ & _ & ?)].
    + by split.
  - destruct (decide (type event = "mousedown")) as [Hdown|Hdown];
      [|apply Hgen; [done|tauto]].
    apply Hgen; [|tauto].
    unfold _evtMouseDown. fold i.
    destruct (negb (button event =? 0)); [done|].
    case_bool_decide; [done|].
    destruct (Z.ltb_spec i 0) as [Hi|Hi]; [done|].
    destruct (children_hit this _ _ i eq_refl Hi) as (n & Hat & Hclose).
    rewrite Hclose, Hat. by repeat case_match.
Qed.

Lemma handleEvent_throws_witness :
  let stale := (removeTitleAt 1 twoTabs).2 in
  let event := mkMouseEvent "click" 0 150 10 20%nat false false in
  titleAt stale (hitTestTabs stale (clientX event) (clientY event)) = None ∧
  handleEvent plainPage event stale
    = (TypeError, stopPropagation (preventDefault event), stale).
Proof.
  split; [reflexivity|].
  apply (proj2 (handleEvent_throws plainPage
                  (mkMouseEvent "click" 0 150 10 20%nat false false)
                  (removeTitleAt 1 twoTabs).2)).
  reflexivity.
Defined.

(** ** Sessions and the listeners on the document *)

Lemma capturing_consistent (this : TabBar) : capturing this -> consistent this.
Proof.
  unfold capturing. intros Hcap. split.
  - intros data Hdata. rewrite Hdata in Hcap. by destruct Hcap.
  - intros type. destruct (_dragData this).
    + destruct Hcap as [_ ->]. rewrite !elem_of_cons, elem_of_nil. tauto.
    + rewrite Hcap, elem_of_nil. tauto.
  - intros Hidle. by rewrite Hidle in Hcap.
Qed.

Lemma sameSession_capturing (a b : TabBar) :
  sameSession a b -> capturing a -> capturing b.
Proof. unfold capturing. intros [Hd Hc]. by rewrite Hd, Hc. Qed.

Lemma mutator_capturing (k : M) (this : TabBar) :
  (∀ s, sameSession s (k s).2) ->
  capturing this -> capturing (seq _releaseMouse k this).2.
Proof.
  intros Hk Hcap. apply capturing_consistent in Hcap.
  rewrite seq_release by (by apply consistent_releasable).
  destruct (_releaseMouse_consistent this Hcap) as (_ & Hd & Hc).
  eapply sameSession_capturing; [apply Hk|]. unfold capturing. by rewrite Hd.
Qed.

Lemma insertTitle_capturing (index : Z) (t : Title) (this : TabBar) :
  capturing this -> capturing (insertTitle index t this).2.
Proof.
  unfold insertTitle. apply mutator_capturing. intros s.
  repeat case_match; cbn [fst snd]; session.
Qed.

Lemma removeTitleAt_capturing (index : Z) (this : TabBar) :
  capturing this -> capturing (removeTitleAt index this).2.
Proof.
  unfold removeTitleAt. apply mutator_capturing. intros s.
  unfold arrays_removeAt. repeat case_match; simplify_eq; cbn [fst snd]; session.
Qed.

Lemma clearTitles_capturing (this : TabBar) :
  capturing this -> capturing (clearTitles this).2.
Proof.
  unfold clearTitles. apply mutator_capturing. intros s.
  cbn [fst snd]. session.
Qed.

(** X15.  The bar listens on the document exactly while a session is
    open.  On a tab bar that holds no listener without a session, and the
    listeners for the release and the moves of the mouse, with no active
    drag, with one, every call leaves it so: a press that opens a session
    installs the two listeners, and every call that releases the mouse
    removes them with the session. *)
Theorem capture_follows_session (page : Page) (c : Call) (this : TabBar) :
  capturing this -> capturing (call page c this).2.
Proof.
  intros Hcap. destruct c; cbn [call addTitle removeTitle].
  - by apply insertTitle_capturing.
  - by apply insertTitle_capturing.
  - by apply removeTitleAt_capturing.
  - by apply removeTitleAt_capturing.
  - by apply clearTitles_capturing.
  - destruct (_releaseMouse_consistent this (capturing_consistent this Hcap))
      as (_ & Hd & Hc).
    unfold capturing, releaseMouse. fold (released this). by rewrite Hd.
  - eapply sameSession_capturing; [apply set_currentTitle_session|done].
  - eapply sameSession_capturing; [|exact Hcap]. by split.
  - eapply sameSession_capturing; [apply markDirty_session|done].
  - assert (Hh : capturing (handleEvent page event this).2).
    { unfold handleEvent. repeat case_decide; [| |done].
      - unfold _evtClick. by repeat case_match.
      - unfold _evtMouseDown.
        destruct (negb (button event =? 0)); [done|].
        case_bool_decide as Hopen; [done|].
        assert (Hnone : _dragData this = None).
        { destruct (_dragData this); [destruct Hopen; by eexists|done]. }
        destruct (hitTestTabs this (clientX event) (clientY event) <? 0); [done|].
        destruct (closeIconNode this _) as [icon|]; [|done].
        destruct (contains page icon _); [done|].
        destruct (_tabsMovable this).
        + destruct (at_index (children this) _) as [n|]; [|done]. cbn [fst snd].
          eapply sameSession_capturing; [apply set_currentTitle_session|].
          unfold capturing in Hcap. rewrite Hnone in Hcap.
          match goal with
          | |- capturing (addDocumentListener _ (addDocumentListener _
                 (with_dragData _ (Some ?data)))) =>
              destruct (press_capture this data Hcap) as [Hd Hc]
          end.
          unfold capturing. by rewrite Hd, Hc.
        + cbn [fst snd].
          eapply sameSession_capturing; [apply set_currentTitle_session|done]. }
    by destruct (handleEvent page event this) as [[c e] s].
Qed.

Lemma capture_follows_session_witness :
  capturing twoTabs ∧
  capturing (call plainPage (HandleEvent pressB) twoTabs).2 ∧
  documentCapture (call plainPage (HandleEvent pressB) twoTabs).2
    = ["mouseup"; "mousemove"].
Proof.
  assert (Hcap : capturing twoTabs) by reflexivity.
  split; [exact Hcap|].
  split; [exact (capture_follows_session plainPage (HandleEvent pressB) twoTabs Hcap)|].
  reflexivity.
Defined.

Lemma clearLoop_frame (fuel : nat) (this : TabBar) :
  let after := clearLoop fuel this in
  _dirty after = _dirty this ∧ updateRequests after = updateRequests this ∧
  emitted after = emitted this ∧ _tabsMovable after = _tabsMovable this ∧
  children after = children this.
Proof.
  revert this. induction fuel as [|fuel IH]; intros this; simpl; [done|].
  destruct (last (_titles this)); [|done].
  by destruct (IH (disconnect t (with_titles this (removelast (_titles this)))))
    as (-> & -> & -> & -> & ->).
Qed.

(** X16.  [clearTitles] empties the tab bar of its titles: it completes,
    no title is left, no former member is left connected, the dirty flag
    is set, one update is requested, nothing is emitted and no session is
    left open. *)
Theorem clearTitles_clears (this : TabBar) :
  releasable this ->
  let after := clearTitles this in
  after.1 = Normal ∧
  _titles after.2 = [] ∧
  (∀ t, t ∈ connected after.2 <-> t ∈ connected this ∧ t ∉ _titles this) ∧
  _dirty after.2 = true ∧
  updateRequests after.2 = S (updateRequests this) ∧
  emitted after.2 = emitted this ∧
  _dragData after.2 = None.
Proof.
  intros Hok after. subst after.
  split; [by destruct (clearTitles_result this Hok) as (-> & _)|].
  split; [by destruct (clearTitles_result this Hok) as (_ & -> & _)|].
  split; [intros t; by apply clearTitles_connected|].
  unfold clearTitles. rewrite seq_release by done.
  destruct (_releaseMouse_frame this) as (Hd & _ & _ & _ & _ & _ & Hu & He).
  fold (released this) in Hd, Hu, He. cbn [snd].
  destruct (clearLoop_frame (length (_titles (released this))) (released this))
    as (_ & Hu' & He' & _).
  destruct (clearLoop_session (length (_titles (released this))) (released this))
    as [Hd' _].
  simpl. by rewrite Hu', He', <- Hd', Hu, He, Hd.
Qed.

Lemma clearTitles_clears_witness :
  releasable twoTabsPressed ∧
  _titles (clearTitles twoTabsPressed).2 = [] ∧
  _dragData (clearTitles twoTabsPressed).2 = None.
Proof.
  destruct (clearTitles_clears twoTabsPressed twoTabsPressed_releasable)
    as (_ & Ht & _ & _ & _ & _ & Hd).
  split; [exact twoTabsPressed_releasable|]. split; [exact Ht|exact Hd].
Defined.
